(** * collect_plate_formats: a shallow embedding of the collection pipeline

    The script [scripts/collect_plate_formats.py] walks a fixed table of
    countries; for each one it fetches a Wikipedia article, asks a chat
    model to extract a JSON object from the wikitext and merges the answer
    into a JSON document on disk.

    The embedding keeps the shape of the script:
    - Python [str] values are sequences of code points ([pystr]), so [len],
      slicing, [startswith], [split] and [strip] count what Python counts;
    - parsed JSON is an inductive type with Python's truthiness;
    - [metadata["entries"]] is a finite map from ISO code to JSON value;
    - the effects (HTTP, chat completion, clock, file, console, sleeping)
      are threaded through a state-and-exception monad whose state records
      a trace of events; the outside world is a record of oracles. *)

From Stdlib Require Import ZArith NArith List String Ascii Lia Permutation Sorted.
From Stdlib Require Import Floats.SpecFloat.
From stdpp Require Import gmap list fin_maps.

Set Default Proof Using "Type".
Local Open Scope Z_scope.

(* ===================================================================== *)
(** ** Python strings *)
(* ===================================================================== *)

Module PyStr.

(** A Python [str] is a sequence of Unicode code points. *)
Abbreviation pychar := N (only parsing).
Abbreviation pystr := (list N) (only parsing).

(** An ASCII literal of the source, as a [pystr]. *)
Definition lit (s : string) : pystr := map N_of_ascii (list_ascii_of_string s).

Definition nl : pystr := [10%N].     (* "\n" *)
Definition dq : pystr := [34%N].     (* the double quote character *)

(** [len(s)] *)
Definition len (s : pystr) : Z := Z.of_nat (length s).

(** [s.startswith(p)] *)
Fixpoint startswith (p s : pystr) : bool :=
  match p, s with
  | [], _ => true
  | _ :: _, [] => false
  | a :: p', b :: s' => N.eqb a b && startswith p' s'
  end.

(** [s.endswith(p)] *)
Definition endswith (p s : pystr) : bool := startswith (rev p) (rev s).

(** [p in s] *)
Fixpoint contains (p s : pystr) : bool :=
  startswith p s ||
  match s with
  | [] => false
  | _ :: s' => contains p s'
  end.

(** [s[:n]] for [n >= 0]. *)
Definition slice_to (n : Z) (s : pystr) : pystr := take (Z.to_nat n) s.

(** [s[:-n]] for [n > 0]. *)
Definition slice_drop_last (n : nat) (s : pystr) : pystr := take (length s - n)%nat s.

(** [s.partition(c)] restricted to what [split] needs: the text before
    and after the first occurrence of the character [c], when there is
    one. *)
Fixpoint cut_at (c : pychar) (s : pystr) : option (pystr * pystr) :=
  match s with
  | [] => None
  | a :: s' =>
      if N.eqb a c then Some ([], s')
      else match cut_at c s' with
           | Some (h, t) => Some (a :: h, t)
           | None => None
           end
  end.

(** [s.split(c, 1)] for a one-character separator: one piece when the
    separator does not occur, two pieces otherwise. *)
Definition split1 (c : pychar) (s : pystr) : list pystr :=
  match cut_at c s with
  | Some (h, t) => [h; t]
  | None => [s]
  end.

(** [c.isspace()]: the code points Python's [str.strip()] removes. *)
Definition isspace (c : pychar) : bool :=
  ((9 <=? c) && (c <=? 13) || (28 <=? c) && (c <=? 32)
   || (c =? 133) || (c =? 160) || (c =? 5760)
   || (8192 <=? c) && (c <=? 8202)
   || (c =? 8232) || (c =? 8233) || (c =? 8239) || (c =? 8287)
   || (c =? 12288))%N.

Fixpoint lstrip (s : pystr) : pystr :=
  match s with
  | [] => []
  | a :: s' => if isspace a then lstrip s' else s
  end.

Definition rstrip (s : pystr) : pystr := rev (lstrip (rev s)).

(** [s.strip()] *)
Definition strip (s : pystr) : pystr := lstrip (rstrip s).

(** Lexicographic comparison of strings by code point ([<] on [str]). *)
Fixpoint compare (s t : pystr) : comparison :=
  match s, t with
  | [], [] => Eq
  | [], _ :: _ => Lt
  | _ :: _, [] => Gt
  | a :: s', b :: t' =>
      match N.compare a b with
      | Eq => compare s' t'
      | o => o
      end
  end.

Definition leb (s t : pystr) : bool :=
  match compare s t with Gt => false | _ => true end.

(** [f"{s:4s}"]: pad with spaces on the right up to the given width. *)
Definition ljust (w : nat) (s : pystr) : pystr :=
  s ++ repeat 32%N (w - length s)%nat.

End PyStr.
Import PyStr.

(* ===================================================================== *)
(** ** Parsed JSON values, as [json.loads] returns them *)
(* ===================================================================== *)

#[warnings="-register-all"]
Inductive json : Type :=
| JNull
| JBool (b : bool)
| JInt (z : Z)
| JFloat (f : spec_float)
| JStr (s : pystr)
| JArr (l : list json)
| JObj (d : list (pystr * json)).

(** Python truthiness ([if result:]). *)
Definition truthy (v : json) : bool :=
  match v with
  | JNull => false
  | JBool b => b
  | JInt z => negb (z =? 0)
  | JFloat (S754_zero _) => false
  | JFloat _ => true
  | JStr s => match s with [] => false | _ => true end
  | JArr l => match l with [] => false | _ => true end
  | JObj d => match d with [] => false | _ => true end
  end.

(** [d[k] = v] on a Python dict kept in insertion order: an existing key
    keeps its position, a new key goes last. *)
Fixpoint dict_set (k : pystr) (v : json) (d : list (pystr * json)) : list (pystr * json) :=
  match d with
  | [] => [(k, v)]
  | (k', v') :: d' =>
      if decide (k' = k) then (k, v) :: d' else (k', v') :: dict_set k v d'
  end.

(** [d.get(k)] *)
Fixpoint dict_get (k : pystr) (d : list (pystr * json)) : option json :=
  match d with
  | [] => None
  | (k', v') :: d' => if decide (k' = k) then Some v' else dict_get k d'
  end.

(* ===================================================================== *)
(** ** Constants of the script *)
(* ===================================================================== *)

(** [REQUEST_DELAY = 1.0], in seconds. *)
Definition REQUEST_DELAY : Z := 1.

(** [COUNTRIES]: ISO code -> (country name, Wikipedia article suffix), in
    the order of the dict literal, which is the order of iteration. *)
Definition COUNTRIES : list (pystr * (pystr * pystr)) :=
  [ (lit "AL", (lit "Albania", lit "Albania"));
    (lit "AD", (lit "Andorra", lit "Andorra"));
    (lit "AM", (lit "Armenia", lit "Armenia"));
    (lit "AT", (lit "Austria", lit "Austria"));
    (lit "BY", (lit "Belarus", lit "Belarus"));
    (lit "BE", (lit "Belgium", lit "Belgium"));
    (lit "BA", (lit "Bosnia and Herzegovina", lit "Bosnia_and_Herzegovina"));
    (lit "BG", (lit "Bulgaria", lit "Bulgaria"));
    (lit "CH", (lit "Switzerland", lit "Switzerland"));
    (lit "CY", (lit "Cyprus", lit "Cyprus"));
    (lit "CZ", (lit "Czech Republic", lit "the_Czech_Republic"));
    (lit "DE", (lit "Germany", lit "Germany"));
    (lit "DK", (lit "Denmark", lit "Denmark"));
    (lit "EE", (lit "Estonia", lit "Estonia"));
    (lit "ES", (lit "Spain", lit "Spain"));
    (lit "FI", (lit "Finland", lit "Finland"));
    (lit "FR", (lit "France", lit "France"));
    (lit "GB", (lit "United Kingdom", lit "the_United_Kingdom"));
    (lit "GE", (lit "Georgia", lit "Georgia_(country)"));
    (lit "GR", (lit "Greece", lit "Greece"));
    (lit "HR", (lit "Croatia", lit "Croatia"));
    (lit "HU", (lit "Hungary", lit "Hungary"));
    (lit "IE", (lit "Ireland", lit "the_Republic_of_Ireland"));
    (lit "IS", (lit "Iceland", lit "Iceland"));
    (lit "IT", (lit "Italy", lit "Italy"));
    (lit "LI", (lit "Liechtenstein", lit "Liechtenstein"));
    (lit "LT", (lit "Lithuania", lit "Lithuania"));
    (lit "LU", (lit "Luxembourg", lit "Luxembourg"));
    (lit "LV", (lit "Latvia", lit "Latvia"));
    (lit "MD", (lit "Moldova", lit "Moldova"));
    (lit "ME", (lit "Montenegro", lit "Montenegro"));
    (lit "MK", (lit "North Macedonia", lit "North_Macedonia"));
    (lit "NL", (lit "Netherlands", lit "the_Netherlands"));
    (lit "NO", (lit "Norway", lit "Norway"));
    (lit "PL", (lit "Poland", lit "Poland"));
    (lit "PT", (lit "Portugal", lit "Portugal"));
    (lit "RO", (lit "Romania", lit "Romania"));
    (lit "RS", (lit "Serbia", lit "Serbia"));
    (lit "SE", (lit "Sweden", lit "Sweden"));
    (lit "SI", (lit "Slovenia", lit "Slovenia"));
    (lit "SK", (lit "Slovakia", lit "Slovakia"));
    (lit "TR", (lit "Turkey", lit "Turkey"));
    (lit "UA", (lit "Ukraine", lit "Ukraine"));
    (lit "XK", (lit "Kosovo", lit "Kosovo")) ].

(** [EXTRACTION_PROMPT], cut at its two placeholders [{country_name}] and
    [{wikitext}]; the doubled braces of the format string are single
    braces here, as [str.format] prints them. *)
Definition PROMPT_HEAD : pystr :=
  lit "You are given the raw wikitext of a Wikipedia article about vehicle registration plates of ".

Definition PROMPT_FIELDS : pystr :=
  lit "." ++ nl
  ++ nl
  ++ lit "Extract the following information about the CURRENT STANDARD private vehicle registration plate. If a piece of information is not available in the article, use null for that field." ++ nl
  ++ nl
  ++ lit "Return ONLY a JSON object (no markdown, no explanation) with these fields:" ++ nl
  ++ nl
  ++ lit "{" ++ nl
  ++ lit "  " ++ dq ++ lit "format_pattern" ++ dq ++ lit ": " ++ dq ++ lit "The character pattern using L for letter and N for number, e.g. 'LL-NNNN-LL' or 'LLL NNNN'. Show separators (hyphens, spaces) as they appear on the plate." ++ dq ++ lit "," ++ nl
  ++ lit "  " ++ dq ++ lit "format_explanation" ++ dq ++ lit ": " ++ dq ++ lit "Brief explanation of what each part represents (e.g. region code, serial number, etc.)" ++ dq ++ lit "," ++ nl
  ++ lit "  " ++ dq ++ lit "alphabet" ++ dq ++ lit ": " ++ dq ++ lit "What alphabet/character set is used (e.g. Latin, Cyrillic, Greek) and any notable restrictions on which letters are used" ++ dq ++ lit "," ++ nl
  ++ lit "  " ++ dq ++ lit "forbidden_combinations" ++ dq ++ lit ": " ++ dq ++ lit "Any letter/number combinations that are banned or restricted, and why. null if none mentioned." ++ dq ++ lit "," ++ nl
  ++ lit "  " ++ dq ++ lit "vanity_plates" ++ dq ++ lit ": " ++ dq ++ lit "Whether personalized/vanity plates are available, and any rules or costs. null if not mentioned." ++ dq ++ lit "," ++ nl
  ++ lit "  " ++ dq ++ lit "year_introduced" ++ dq ++ lit ": " ++ dq ++ lit "Year the current plate design/system was introduced" ++ dq ++ lit "," ++ nl
  ++ lit "  " ++ dq ++ lit "dimensions" ++ dq ++ lit ": " ++ dq ++ lit "Physical plate dimensions (e.g. '520 " ++ [215%N] ++ lit " 110 mm')" ++ dq ++ lit "," ++ nl
  ++ lit "  " ++ dq ++ lit "colors_background" ++ dq ++ lit ": " ++ dq ++ lit "Background color of the plate" ++ dq ++ lit "," ++ nl
  ++ lit "  " ++ dq ++ lit "colors_lettering" ++ dq ++ lit ": " ++ dq ++ lit "Color of the letters/numbers" ++ dq ++ lit "," ++ nl
  ++ lit "  " ++ dq ++ lit "colors_strip" ++ dq ++ lit ": " ++ dq ++ lit "Color/description of the side strip or band (e.g. 'Blue EU band with yellow stars'). null if no strip." ++ dq ++ lit "," ++ nl
  ++ lit "  " ++ dq ++ lit "typeface" ++ dq ++ lit ": " ++ dq ++ lit "Name of the font/typeface used on the plate. null if not mentioned." ++ dq ++ lit "," ++ nl
  ++ lit "  " ++ dq ++ lit "strip_contents" ++ dq ++ lit ": " ++ dq ++ lit "What is displayed on the strip/band (e.g. 'EU flag and country code D'). null if no strip." ++ dq ++ nl
  ++ lit "}" ++ nl
  ++ nl
  ++ lit "Here is the wikitext:" ++ nl
  ++ nl.

Definition PROMPT_TAIL : pystr :=
  nl.

(** [EXTRACTION_PROMPT.format(country_name=..., wikitext=...)] *)
Definition format_prompt (country_name wikitext : pystr) : pystr :=
  PROMPT_HEAD ++ country_name ++ PROMPT_FIELDS ++ wikitext ++ PROMPT_TAIL.

(** Constants of [extract_with_openai]. *)
Definition max_chars : Z := 80000.
Definition TRUNCATION_NOTE : pystr := lit "[... article truncated ...]".
Definition TRUNCATION_MARKER : pystr := nl ++ nl ++ TRUNCATION_NOTE.
Definition FENCE : pystr := lit "```".

(** The article title [f"Vehicle_registration_plates_of_{article_suffix}"]. *)
Definition article_title (article_suffix : pystr) : pystr :=
  lit "Vehicle_registration_plates_of_" ++ article_suffix.

(* ===================================================================== *)
(** ** Data model *)
(* ===================================================================== *)

(** The dataset document ([metadata]); [entries] maps an ISO code to the
    stored extraction result.  A persisted document without an ["entries"]
    key reads as one with no entries ([existing.get("entries", {})]). *)
Record document : Type := Document {
  generated_at : pystr;
  source : pystr;
  extraction_model : pystr;
  entries : gmap pystr json
}.

(** What [fetch_article_wikitext] looks at in an HTTP response: the status
    code, the [Retry-After] header, whether the JSON body has an ["error"]
    key, and the value found under [parse/wikitext/*]. *)
Record response : Type := Response {
  status_code : Z;
  retry_after : option pystr;
  body_has_error : bool;
  body_wikitext : option pystr
}.

(** Command line ([argparse]). *)
Record args : Type := Args {
  dry_run : bool;
  country : option pystr;
  output_dir : pystr
}.

(** The exceptions the script can meet. *)
Inductive exn : Type :=
| HTTPError (status : Z)      (* resp.raise_for_status() *)
| ValueError                  (* int(...) of a non-number, sleep of a negative *)
| IndexError                  (* [...][1] on a one-element list *)
| TypeError                   (* item assignment on a non-dict *)
| JSONDecodeError             (* json.loads *)
| APIError.                   (* openai.APIError *)

(** Console output: one constructor per [print] of the script, carrying
    the values it interpolates. *)
Inductive message : Type :=
| MsgKeyRequired
| MsgKeyHint
| MsgUnknownCode (code : pystr)
| MsgAvailableCodes
| MsgTableRow (line : pystr)
| MsgSkipping (iso country_name : pystr)
| MsgCountry (iso country_name : pystr)
| MsgFetching (title : pystr)
| MsgNotFound
| MsgWikitextLen (n : Z)
| MsgRateLimited (wait : Z)
| MsgExtracting
| MsgFormat (format_pattern : option json)
| MsgNoResult
| MsgParseFailed
| MsgAPIError
| MsgDone (success failed skipped : nat)
| MsgOutput (dir : pystr).

(** Observable events, in the order the script performs them. *)
Inductive event : Type :=
| EvSleep (seconds : Z)                    (* time.sleep *)
| EvGet (page : pystr)                     (* session.get(WIKIPEDIA_API_URL, page=...) *)
| EvClient                                 (* openai.OpenAI(api_key=...) *)
| EvChat (country_name wikitext : pystr)   (* chat.completions.create with the
                                              prompt formatted from these two *)
| EvMkdir (dir : pystr)                    (* (output_dir / "metadata").mkdir *)
| EvWrite (d : document)                   (* json.dump(metadata, f) on output_path *)
| EvPrint (m : message).

Definition is_network (e : event) : bool :=
  match e with
  | EvGet _ | EvChat _ _ => true
  | _ => false
  end.

(** Library functions the script calls and that are no part of it. *)
Record pylib : Type := PyLib {
  json_loads : pystr -> option json;     (* None: json.JSONDecodeError *)
  py_int : pystr -> option Z;            (* int(str); None: ValueError *)
  str_upper : pystr -> pystr             (* str.upper *)
}.

(** The outside world of one run: the credential variable, the answer of
    the wiki to the k-th GET, the answer of the model to the k-th request
    ([None]: an [openai.APIError]), and the clock at its k-th reading.
    Every GET is answered (no transport error) with a JSON body, every
    reply of the model is a string, and the file system obeys. *)
Record world : Type := World {
  api_key : option pystr;
  http_get : nat -> pystr -> response;
  chat_create : nat -> pystr -> option pystr;
  utc_now : nat -> pystr
}.

(** Machine state: the trace (newest event first), how many times each
    oracle was consulted, and the content of [output_path]. *)
Record state : Type := State {
  trace : list event;
  n_get : nat;
  n_chat : nat;
  n_now : nat;
  file : option document
}.

(** The events of a run in chronological order. *)
Definition history (s : state) : list event := rev (trace s).

(** The messages among some events. *)
Fixpoint printed (evs : list event) : list message :=
  match evs with
  | [] => []
  | EvPrint m :: evs' => m :: printed evs'
  | _ :: evs' => printed evs'
  end.

(** The documents written among some events. *)
Fixpoint written (evs : list event) : list document :=
  match evs with
  | [] => []
  | EvWrite d :: evs' => d :: written evs'
  | _ :: evs' => written evs'
  end.

(** The GET requests among some events. *)
Fixpoint requested (evs : list event) : list pystr :=
  match evs with
  | [] => []
  | EvGet page :: evs' => page :: requested evs'
  | _ :: evs' => requested evs'
  end.

(* ===================================================================== *)
(** ** The state-and-exception monad *)
(* ===================================================================== *)

Inductive res (A : Type) : Type :=
| Ok (a : A)
| Raise (e : exn).
Arguments Ok {A} a.
Arguments Raise {A} e.

Definition M (A : Type) : Type := state -> res A * state.

#[global] Instance M_ret : MRet M := fun A (a : A) s => (Ok a, s).

#[global] Instance M_bind : MBind M := fun A B (f : A -> M B) (m : M A) s =>
  match m s with
  | (Ok a, s') => f a s'
  | (Raise e, s') => (Raise e, s')
  end.

Definition raise {A} (e : exn) : M A := fun s => (Raise e, s).

(** [try: m except <handled>: h]: the handler sees the state the body
    left behind; an exception it does not handle goes on. *)
Definition try_except {A} (m : M A) (h : exn -> option (M A)) : M A := fun s =>
  match m s with
  | (Ok a, s') => (Ok a, s')
  | (Raise e, s') =>
      match h e with
      | Some k => k s'
      | None => (Raise e, s')
      end
  end.

Definition emit (e : event) : M unit := fun s =>
  (Ok tt, State (e :: trace s) (n_get s) (n_chat s) (n_now s) (file s)).

Definition print (m : message) : M unit := emit (EvPrint m).

(** [time.sleep(d)] refuses a negative length. *)
Definition sleep (d : Z) : M unit :=
  if d <? 0 then raise ValueError else emit (EvSleep d).

(** [open(output_path)] / [json.load]. *)
Definition read_file : M (option document) := fun s => (Ok (file s), s).

(** [json.dump(metadata, f, ...)] on [output_path] opened for writing. *)
Definition write_file (d : document) : M unit := fun s =>
  (Ok tt, State (EvWrite d :: trace s) (n_get s) (n_chat s) (n_now s) (Some d)).

(* ===================================================================== *)
(** ** The program *)
(* ===================================================================== *)

(** Loop variables of [main]: the in-memory document and the counters. *)
Record loop_state : Type := LoopState {
  metadata : document;
  success : nat;
  failed : nat;
  skipped : nat
}.

(** How [main] ends when no exception leaves it. *)
Inductive outcome : Type :=
| MissingCredential                 (* early return: no OPENAI_API_KEY *)
| UnknownCountry                    (* early return: unknown --country code *)
| Finished (ls : loop_state).       (* ran to the last line *)

Abbreviation item := (pystr * (pystr * pystr))%type (only parsing).

(** [sorted(countries.items())]: tuples compare component by component. *)
Definition item_leb (x y : item) : bool :=
  match PyStr.compare x.1 y.1 with
  | Lt => true
  | Gt => false
  | Eq => match PyStr.compare x.2.1 y.2.1 with
          | Lt => true
          | Gt => false
          | Eq => PyStr.leb x.2.2 y.2.2
          end
  end.

Fixpoint insert_sorted (x : item) (l : list item) : list item :=
  match l with
  | [] => [x]
  | y :: l' => if item_leb x y then x :: l else y :: insert_sorted x l'
  end.

Fixpoint sorted (l : list item) : list item :=
  match l with
  | [] => []
  | x :: l' => insert_sorted x (sorted l')
  end.

(** Rows in increasing order of their code. *)
Definition code_lt (x y : item) : Prop := PyStr.compare x.1 y.1 = Lt.

Fixpoint increasing_codes (l : list item) : bool :=
  match l with
  | [] => true
  | x :: l' =>
      match l' with
      | [] => true
      | y :: _ =>
          match PyStr.compare x.1 y.1 with Lt => increasing_codes l' | _ => false end
      end
  end.

(** [countries[code]] / [code in countries] *)
Fixpoint lookup_country (code : pystr) (t : list item) : option (pystr * pystr) :=
  match t with
  | [] => None
  | (c, info) :: t' => if decide (c = code) then Some info else lookup_country code t'
  end.

(** [f"  {c:4s}  {name}"] *)
Definition table_row (it : item) : pystr :=
  lit "  " ++ ljust 4 it.1 ++ lit "  " ++ it.2.1.

(** [if args.country:] -- an absent or empty value is no selection. *)
Definition has_country (a : args) : bool :=
  match country a with
  | Some (_ :: _) => true
  | _ => false
  end.

(** [wikitext[:max_chars] + marker] when the text is over the budget. *)
Definition truncate (wikitext : pystr) : pystr :=
  if len wikitext >? max_chars
  then slice_to max_chars wikitext ++ TRUNCATION_MARKER
  else wikitext.

(** The prompt [extract_with_openai] builds for a country and a wikitext. *)
Definition extraction_prompt (country_name wikitext : pystr) : pystr :=
  format_prompt country_name (truncate wikitext).

(** The fence-stripping lines of [extract_with_openai], from
    [response_text] after its first [strip()] to the text handed to
    [json.loads]. *)
Definition strip_fences (response_text : pystr) : res pystr :=
  if startswith FENCE response_text then
    match split1 10%N response_text !! 1%nat with
    | None => Raise IndexError
    | Some rest =>
        let rest := if endswith FENCE rest then slice_drop_last 3 rest else rest in
        Ok (strip rest)
    end
  else Ok response_text.

Definition lift_res {A} (r : res A) : M A := fun s => (r, s).

(** The state a computation leaves behind. *)
Definition after {A} (m : M A) (s : state) : state := (m s).2.

Section Program.

Context (L : pylib) (W : world).

(** [not api_key] *)
Definition api_key_missing : bool :=
  match api_key W with
  | Some (_ :: _) => false
  | _ => true
  end.

(** [datetime.now(timezone.utc).isoformat()] *)
Definition now : M pystr := fun s =>
  (Ok (utc_now W (n_now s)),
   State (trace s) (n_get s) (n_chat s) (S (n_now s)) (file s)).

(** [session.get(WIKIPEDIA_API_URL, params=params)] with [page] the only
    parameter that varies. *)
Definition session_get (page : pystr) : M response := fun s =>
  (Ok (http_get W (n_get s) page),
   State (EvGet page :: trace s) (S (n_get s)) (n_chat s) (n_now s) (file s)).

(** [client.chat.completions.create(model, max_tokens, messages)] with
    the prompt formatted from [country_name] and [wikitext]; gives
    [response.choices[0].message.content]. *)
Definition chat_completions_create (country_name wikitext : pystr) : M pystr := fun s =>
  let s' := State (EvChat country_name wikitext :: trace s)
                  (n_get s) (S (n_chat s)) (n_now s) (file s) in
  match chat_create W (n_chat s) (format_prompt country_name wikitext) with
  | Some content => (Ok content, s')
  | None => (Raise APIError, s')
  end.

(** [int(resp.headers.get("Retry-After", 60))]; [None] when [int]
    raises. *)
Definition retry_wait (resp : response) : option Z :=
  match retry_after resp with
  | None => Some 60
  | Some h => py_int L h
  end.

Definition retry_after_seconds (resp : response) : M Z :=
  match retry_wait resp with
  | Some n => mret n
  | None => raise ValueError
  end.

(** [resp.raise_for_status()]: 4xx and 5xx raise. *)
Definition raise_for_status (resp : response) : M unit :=
  if (400 <=? status_code resp) && (status_code resp <? 600)
  then raise (HTTPError (status_code resp))
  else mret tt.

Definition fetch_article_wikitext (article_suffix : pystr) : M (option pystr) :=
  let title := article_title article_suffix in
  sleep REQUEST_DELAY;;
  resp ← session_get title;
  resp ← (if status_code resp =? 429 then
            wait ← retry_after_seconds resp;
            print (MsgRateLimited wait);;
            sleep wait;;
            session_get title
          else mret resp);
  raise_for_status resp;;
  if body_has_error resp then mret None
  else mret (body_wikitext resp).

(** The end of [extract_with_openai]: from the content of the reply to
    the parsed value. *)
Definition parse_reply (content : pystr) : res json :=
  let response_text := strip content in
  (* Strip markdown code fences if present *)
  match strip_fences response_text with
  | Raise e => Raise e
  | Ok response_text =>
      match json_loads L response_text with
      | Some v => Ok v
      | None => Raise JSONDecodeError
      end
  end.

Definition extract_with_openai (country_name wikitext : pystr) : M json :=
  (* Truncate very long articles to stay within context limits *)
  let wikitext := truncate wikitext in
  content ← chat_completions_create country_name wikitext;
  lift_res (parse_reply content).

(** The four provenance fields written into a result. *)
Definition stamp (iso country_name article_suffix extracted_at : pystr)
    (d : list (pystr * json)) : list (pystr * json) :=
  dict_set (lit "extracted_at") (JStr extracted_at)
    (dict_set (lit "wikipedia_article") (JStr (article_title article_suffix))
       (dict_set (lit "iso") (JStr iso)
          (dict_set (lit "country_name") (JStr country_name) d))).

Definition set_entries (d : document) (e : gmap pystr json) : document :=
  Document (generated_at d) (source d) (extraction_model d) e.

Definition set_generated_at (d : document) (t : pystr) : document :=
  Document t (source d) (extraction_model d) (entries d).

Definition count_success (ls : loop_state) (md : document) : loop_state :=
  LoopState md (S (success ls)) (failed ls) (skipped ls).
Definition count_failed (ls : loop_state) : loop_state :=
  LoopState (metadata ls) (success ls) (S (failed ls)) (skipped ls).
Definition count_skipped (ls : loop_state) : loop_state :=
  LoopState (metadata ls) (success ls) (failed ls) (S (skipped ls)).

(** [iso in metadata["entries"]] *)
Definition collected (iso : pystr) (ls : loop_state) : bool :=
  match entries (metadata ls) !! iso with
  | Some _ => true
  | None => false
  end.

(** The body of the [try] in the loop: extraction, and what is done
    with a result. *)
Definition extract_and_store (it : item) (wikitext : pystr) (ls : loop_state)
    : M loop_state :=
  let '(iso, (country_name, article_suffix)) := it in
  result ← extract_with_openai country_name wikitext;
  if truthy result then
    match result with
    | JObj d =>
        extracted_at ← now;
        let d := stamp iso country_name article_suffix extracted_at d in
        let md := set_entries (metadata ls) (<[iso := JObj d]> (entries (metadata ls))) in
        print (MsgFormat (dict_get (lit "format_pattern") d));;
        (* Write incrementally *)
        t ← now;
        let md := set_generated_at md t in
        write_file md;;
        mret (count_success ls md)
    | _ => raise TypeError      (* result["country_name"] = ... *)
    end
  else
    print MsgNoResult;;
    mret (count_failed ls).

(** The [except] clauses of the loop. *)
Definition on_extract_error (ls : loop_state) (e : exn) : option (M loop_state) :=
  match e with
  | JSONDecodeError => Some (print MsgParseFailed;; mret (count_failed ls))
  | APIError => Some (print MsgAPIError;; mret (count_failed ls))
  | _ => None
  end.

(** The [try] statement of the loop. *)
Definition try_extract (it : item) (wikitext : pystr) (ls : loop_state) : M loop_state :=
  try_except (extract_and_store it wikitext ls) (on_extract_error ls).

(** One iteration of the loop over [countries.items()]. *)
Definition process_country (a : args) (it : item) (ls : loop_state) : M loop_state :=
  let '(iso, (country_name, article_suffix)) := it in
  (* Skip if already collected (unless single-country mode) *)
  if collected iso ls && negb (has_country a) then
    print (MsgSkipping iso country_name);;
    mret (count_skipped ls)
  else
    print (MsgCountry iso country_name);;
    (* 1. Fetch wikitext *)
    print (MsgFetching (article_title article_suffix));;
    wikitext ← fetch_article_wikitext article_suffix;
    match wikitext with
    | None =>
        print MsgNotFound;;
        mret (count_failed ls)
    | Some wikitext =>
        print (MsgWikitextLen (len wikitext));;
        if dry_run a then mret (count_success ls (metadata ls))
        else
          (* 2. Extract with OpenAI *)
          print MsgExtracting;;
          try_extract it wikitext ls
    end.

(** [for iso, (country_name, article_suffix) in countries.items(): ...] *)
Fixpoint for_each (a : args) (countries : list item) (ls : loop_state) : M loop_state :=
  match countries with
  | [] => mret ls
  | it :: rest =>
      ls ← process_country a it ls;
      for_each a rest ls
  end.

(** Which countries to process: the whole table, the one selected, or
    the unknown code that was asked for. *)
Definition select_countries (a : args) : pystr + list item :=
  match country a with
  | Some ((_ :: _) as c) =>
      let code := str_upper L c in
      match lookup_country code COUNTRIES with
      | None => inl code
      | Some info => inr [(code, info)]
      end
  | _ => inr COUNTRIES
  end.

Fixpoint print_table (rows : list item) : M unit :=
  match rows with
  | [] => mret tt
  | it :: rest => print (MsgTableRow (table_row it));; print_table rest
  end.

(** [existing.get("entries", {})] when the file is there and no single
    country was selected, the empty dict otherwise. *)
Definition loaded_entries (a : args) (existing : option document) : gmap pystr json :=
  match existing with
  | Some d => if has_country a then ∅ else entries d
  | None => ∅
  end.

(** The document the loop starts from. *)
Definition initial_metadata (a : args) : M document :=
  t ← now;
  existing ← read_file;
  mret (Document t
          (lit "Wikipedia (per-country vehicle registration plate articles)")
          (lit "gpt-4o-mini")
          (loaded_entries a existing)).

(** The last lines of [main], after the loop. *)
Definition final_write (a : args) (ls : loop_state) : M loop_state :=
  if dry_run a then mret ls
  else
    t ← now;
    let md := set_generated_at (metadata ls) t in
    write_file md;;
    mret (LoopState md (success ls) (failed ls) (skipped ls)).

Definition report (a : args) (ls : loop_state) : M unit :=
  print (MsgDone (success ls) (failed ls) (skipped ls));;
  if dry_run a then mret tt else print (MsgOutput (output_dir a)).

(** [main] from the loading of the existing results to its end. *)
Definition collect (a : args) (countries : list item) : M outcome :=
  (* Load existing results for incremental updates *)
  md ← initial_metadata a;
  ls ← for_each a countries (LoopState md 0 0 0);
  (* Final write *)
  ls ← final_write a ls;
  report a ls;;
  mret (Finished ls).

Definition main (a : args) : M outcome :=
  if api_key_missing && negb (dry_run a) then
    print MsgKeyRequired;;
    print MsgKeyHint;;
    mret MissingCredential
  else
    emit (EvMkdir (output_dir a));;
    (if dry_run a then mret tt else emit EvClient);;
    (* Determine which countries to process *)
    match select_countries a with
    | inl code =>
        print (MsgUnknownCode code);;
        print MsgAvailableCodes;;
        print_table (sorted COUNTRIES);;
        mret UnknownCountry
    | inr countries => collect a countries
    end.

(** A run from a given content of [output_path]. *)
Definition initial_state (f : option document) : state := State [] 0 0 0 f.

Definition run (a : args) (f : option document) : res outcome * state :=
  main a (initial_state f).

End Program.

(* ===================================================================== *)
(** ** Sample library functions, worlds and documents *)
(* ===================================================================== *)

Module Sample.

(** [int] on a plain run of decimal digits. *)
Fixpoint digits (acc : Z) (s : pystr) : option Z :=
  match s with
  | [] => Some acc
  | c :: s' =>
      if ((48 <=? c) && (c <=? 57))%N
      then digits (10 * acc + Z.of_N (c - 48)) s'
      else None
  end.

Definition int (s : pystr) : option Z :=
  match s with
  | [] => None
  | _ => digits 0 s
  end.

(** [upper] on ASCII letters. *)
Definition upper (s : pystr) : pystr :=
  map (fun c => if ((97 <=? c) && (c <=? 122))%N then (c - 32)%N else c) s.

Definition object_text : pystr :=
  lit "{" ++ dq ++ lit "format_pattern" ++ dq ++ lit ": " ++ dq ++ lit "LL NNNN" ++ dq ++ lit "}".

Definition object_value : json :=
  JObj [(lit "format_pattern", JStr (lit "LL NNNN"))].

(** [json.loads] on the few texts the examples use; anything else is
    taken to be malformed. *)
Definition loads (s : pystr) : option json :=
  if decide (s = object_text) then Some object_value
  else if decide (s = lit "{}") then Some (JObj [])
  else if decide (s = lit "[1]") then Some (JArr [JInt 1])
  else None.

Definition lib : pylib := PyLib loads int upper.

Definition ok_response (page : pystr) : response :=
  Response 200 None false (Some (lit "wikitext of " ++ page)).

(** Every article is there and the model answers with a JSON object. *)
Definition good_world : world :=
  World (Some (lit "sk-test"))
        (fun _ page => ok_response page)
        (fun _ _ => Some object_text)
        (fun k => lit "t" ++ repeat 39%N k).

(** The same without the credential variable. *)
Definition no_key_world : world :=
  World None (http_get good_world) (chat_create good_world) (utc_now good_world).

(** The wiki answers the first request with status 500. *)
Definition http500_world : world :=
  World (Some (lit "sk-test"))
        (fun k page => match k with
                       | O => Response 500 None false None
                       | _ => ok_response page
                       end)
        (chat_create good_world) (utc_now good_world).


(** No article is there. *)
Definition no_article_world : world :=
  World (Some (lit "sk-test"))
        (fun _ _ => Response 200 None true None)
        (chat_create good_world) (utc_now good_world).

(** The model answers with text that is no JSON. *)
Definition chatty_world : world :=
  World (Some (lit "sk-test")) (http_get good_world)
        (fun _ _ => Some (lit "Sorry, I cannot help with that."))
        (utc_now good_world).

(** The model's API fails. *)
Definition api_down_world : world :=
  World (Some (lit "sk-test")) (http_get good_world)
        (fun _ _ => None)
        (utc_now good_world).

(** The model answers with an opening fence and nothing else. *)
Definition bare_fence_world : world :=
  World (Some (lit "sk-test")) (http_get good_world)
        (fun _ _ => Some (lit "```json"))
        (utc_now good_world).

(** A wikitext of 80001 characters. *)
Definition long_wikitext : pystr := repeat 120%N (Z.to_nat 80001).

Definition germany : item := (lit "DE", (lit "Germany", lit "Germany")).

Definition empty_loop_state : loop_state :=
  LoopState (Document (lit "t0") (lit "Wikipedia") (lit "gpt-4o-mini") ∅) 0 0 0.

(** A persisted document with one entry, for France. *)
Definition france_entry : json := JObj [(lit "iso", JStr (lit "FR"))].

Definition france_doc : document :=
  Document (lit "t-old") (lit "Wikipedia") (lit "gpt-4o-mini")
           {[ lit "FR" := france_entry ]}.

End Sample.

(** More sample worlds, for the edges of the fetcher and of the loop. *)
Module Edges.

(** [int] on an optional minus sign and a run of decimal digits. *)
Definition signed_int (s : pystr) : option Z :=
  match s with
  | 45%N :: digits => option_map Z.opp (Sample.int digits)
  | _ => Sample.int s
  end.

Definition lib : pylib := PyLib Sample.loads signed_int Sample.upper.



(** Every article is there and the model answers with a given text. *)
Definition reply_world (content : pystr) : world :=
  World (Some (lit "sk-test")) (http_get Sample.good_world)
        (fun _ _ => Some content) (utc_now Sample.good_world).


End Edges.

(* ===================================================================== *)
(** ** Reasoning about traces *)
(* ===================================================================== *)

(** The content of [output_path] after some events (newest first), given
    its content before them: the document of the latest write, if any. *)
Fixpoint last_write (evs : list event) (f : option document) : option document :=
  match evs with
  | [] => f
  | EvWrite d :: _ => Some d
  | _ :: evs' => last_write evs' f
  end.

(** [steps P s s']: the machine went from [s] to [s'] performing only
    events that satisfy [P]; the file changed through writes only. *)
Definition steps (P : event -> Prop) (s s' : state) : Prop :=
  exists evs,
    trace s' = evs ++ trace s /\ Forall P evs /\ file s' = last_write evs (file s).

(** [triple P m Q]: from any state, [m] performs only events in [P], and
    a value it returns satisfies [Q]. *)
Definition triple {A} (P : event -> Prop) (m : M A) (Q : A -> Prop) : Prop :=
  forall s, steps P s (m s).2 /\ forall a, (m s).1 = Ok a -> Q a.

Definition is_write (e : event) : bool :=
  match e with EvWrite _ => true | _ => false end.

(** What [fetch_article_wikitext] may do for a given suffix. *)
Definition fetch_event (article_suffix : pystr) (e : event) : Prop :=
  match e with
  | EvSleep _ | EvPrint _ => True
  | EvGet page => page = article_title article_suffix
  | _ => False
  end.

(** What [extract_with_openai] may do for a given country name. *)
Definition extract_event (country_name : pystr) (e : event) : Prop :=
  match e with
  | EvChat n _ => n = country_name
  | _ => False
  end.

(** Whether the loop skips a country. *)
Definition skips (a : args) (it : item) (ls : loop_state) : bool :=
  collected it.1 ls && negb (has_country a).

(** What one iteration of the loop may do: requests are for its own
    country and only when it is not skipped, the model is only asked
    outside dry-run mode, and a write stores the loop's entries with this
    country's entry replaced. *)
Definition country_event (a : args) (it : item) (ls : loop_state) (e : event) : Prop :=
  match e with
  | EvSleep _ | EvPrint _ => True
  | EvGet page => page = article_title it.2.2 /\ skips a it ls = false
  | EvChat n _ => n = it.2.1 /\ skips a it ls = false /\ dry_run a = false
  | EvWrite d =>
      dry_run a = false /\ skips a it ls = false /\
      exists v, entries d = <[it.1 := v]> (entries (metadata ls))
  | EvClient | EvMkdir _ => False
  end.

(** How one iteration may change the in-memory entries. *)
Definition country_result (a : args) (it : item) (ls ls' : loop_state) : Prop :=
  entries (metadata ls') = entries (metadata ls) \/
  (dry_run a = false /\ skips a it ls = false /\
   exists v, entries (metadata ls') = <[it.1 := v]> (entries (metadata ls))).



(** How many countries the loop has dealt with so far. *)
Definition processed (ls : loop_state) : nat :=
  (success ls + failed ls + skipped ls)%nat.

(** A value as the loop stores it for a row of the table: the model's
    object with the four provenance fields of that row written over it. *)
Definition stored_for (it : item) (v : json) : Prop :=
  exists extracted_at d, v = JObj (stamp it.1 it.2.1 it.2.2 extracted_at d).

(** One iteration of the loop, seen from the store: requests are for the
    row's own article and name, and a write stores the loop's entries with
    a value stored for that row under its code. *)
Definition store_event (it : item) (ls : loop_state) (e : event) : Prop :=
  match e with
  | EvSleep _ | EvPrint _ => True
  | EvGet page => page = article_title it.2.2
  | EvChat n _ => n = it.2.1
  | EvWrite d =>
      exists v, stored_for it v /\ entries d = <[it.1 := v]> (entries (metadata ls))
  | EvClient | EvMkdir _ => False
  end.

(** What one iteration does to the loop variables: exactly one counter
    goes up by one, and the entries stay or get a value stored for the
    row. *)
Definition store_result (it : item) (ls ls' : loop_state) : Prop :=
  processed ls' = S (processed ls) /\
  (entries (metadata ls') = entries (metadata ls) \/
   exists v, stored_for it v /\
             entries (metadata ls') = <[it.1 := v]> (entries (metadata ls))).


(** Two command lines that differ at most in the spelling of the country
    they select. *)
Definition same_selection (L : pylib) (a1 a2 : args) : Prop :=
  dry_run a1 = dry_run a2 /\
  output_dir a1 = output_dir a2 /\
  has_country a1 = has_country a2 /\
  select_countries L a1 = select_countries L a2.

Lemma last_write_app evs2 evs1 f :
  last_write (evs2 ++ evs1) f = last_write evs2 (last_write evs1 f).
Proof.
  induction evs2 as [|e evs2 IH]; simpl; [done|].
  destruct e; auto.
Qed.

Lemma steps_refl P s : steps P s s.
Proof. exists []. by repeat split. Qed.

Lemma steps_trans P s1 s2 s3 : steps P s1 s2 -> steps P s2 s3 -> steps P s1 s3.
Proof.
  intros (e1 & Ht1 & HP1 & Hf1) (e2 & Ht2 & HP2 & Hf2).
  exists (e2 ++ e1). split_and!.
  - by rewrite Ht2, Ht1, app_assoc.
  - by apply Forall_app.
  - by rewrite last_write_app, <- Hf1.
Qed.

Lemma steps_mono (P Q : event -> Prop) s s' :
  (forall e, P e -> Q e) -> steps P s s' -> steps Q s s'.
Proof.
  intros HPQ (evs & Ht & HP & Hf). exists evs. split_and!; [done| |done].
  eapply Forall_impl; eauto.
Qed.

Lemma steps_one P e s s' :
  P e -> trace s' = e :: trace s -> file s' = last_write [e] (file s) -> steps P s s'.
Proof. intros He Ht Hf. exists [e]. split_and!; [done| |done]. by constructor. Qed.

Section Triples.

Context {A B : Type} (P : event -> Prop).

Lemma triple_ret (a : A) (Q : A -> Prop) : Q a -> triple P (mret a) Q.
Proof. intros Ha s. split; [apply steps_refl|]. by intros ? [= <-]. Qed.

Lemma triple_raise (e : exn) (Q : A -> Prop) : triple P (raise e) Q.
Proof. intros s. split; [apply steps_refl|]. by intros ? [=]. Qed.

Lemma triple_lift_res (r : res A) (Q : A -> Prop) :
  (forall a, r = Ok a -> Q a) -> triple P (lift_res r) Q.
Proof. intros Hr s. split; [apply steps_refl|]. simpl. auto. Qed.

Lemma triple_bind (m : M A) (f : A -> M B) (Q1 : A -> Prop) (Q : B -> Prop) :
  triple P m Q1 -> (forall a, Q1 a -> triple P (f a) Q) -> triple P (m ≫= f) Q.
Proof.
  intros Hm Hf s. destruct (Hm s) as [Hs Ha].
  unfold mbind, M_bind. destruct (m s) as [[a|e] s1]; simpl in *.
  - destruct (Hf a (Ha a eq_refl) s1) as [Hs1 Hb].
    split; [by eapply steps_trans|done].
  - split; [done|]. by intros ? [=].
Qed.

Lemma triple_try_except (m : M A) (h : exn -> option (M A)) (Q : A -> Prop) :
  triple P m Q -> (forall e k, h e = Some k -> triple P k Q) ->
  triple P (try_except m h) Q.
Proof.
  intros Hm Hh s. destruct (Hm s) as [Hs Ha].
  unfold try_except. destruct (m s) as [[a|e] s1]; simpl in *.
  - split; [done|]. intros ? [= <-]. auto.
  - destruct (h e) as [k|] eqn:Hk.
    + destruct (Hh e k Hk s1) as [Hs1 Hb]. split; [by eapply steps_trans|done].
    + split; [done|]. by intros ? [=].
Qed.

Lemma triple_weaken (m : M A) (P' : event -> Prop) (Q' Q : A -> Prop) :
  triple P' m Q' -> (forall e, P' e -> P e) -> (forall a, Q' a -> Q a) -> triple P m Q.
Proof.
  intros Hm HP HQ s. destruct (Hm s) as [Hs Ha].
  split; [by eapply steps_mono|auto].
Qed.

End Triples.

Lemma triple_emit P e (Q : unit -> Prop) :
  is_write e = false -> P e -> Q tt -> triple P (emit e) Q.
Proof.
  intros Hw He HQ s. split; [|by intros [] _].
  eapply steps_one; [done|done|]. by destruct e.
Qed.

Lemma triple_print P m (Q : unit -> Prop) :
  P (EvPrint m) -> Q tt -> triple P (print m) Q.
Proof. intros. by apply triple_emit. Qed.

Lemma triple_sleep P d (Q : unit -> Prop) :
  P (EvSleep d) -> Q tt -> triple P (sleep d) Q.
Proof.
  intros. unfold sleep. destruct (d <? 0); [apply triple_raise|by apply triple_emit].
Qed.

Lemma triple_write_file P d (Q : unit -> Prop) :
  P (EvWrite d) -> Q tt -> triple P (write_file d) Q.
Proof.
  intros He HQ s. split; [|by intros [] _]. by eapply steps_one.
Qed.

Lemma triple_read_file P (Q : option document -> Prop) :
  (forall f, Q f) -> triple P read_file Q.
Proof. intros HQ s. split; [apply steps_refl|]. intros ? _. apply HQ. Qed.

Section ProgramTriples.

Context (L : pylib) (W : world).

Lemma triple_now P (Q : pystr -> Prop) : (forall t, Q t) -> triple P (now W) Q.
Proof.
  intros HQ s. split; [|intros ? _; apply HQ]. by exists [].
Qed.

Lemma triple_session_get P page (Q : response -> Prop) :
  P (EvGet page) -> (forall r, Q r) -> triple P (session_get W page) Q.
Proof.
  intros He HQ s. split; [|intros ? _; apply HQ]. by eapply steps_one.
Qed.

Lemma triple_chat P n w (Q : pystr -> Prop) :
  P (EvChat n w) -> (forall c, Q c) ->
  triple P (chat_completions_create W n w) Q.
Proof.
  intros He HQ s. split; [|intros ? _; apply HQ].
  unfold chat_completions_create.
  destruct (chat_create W _ _); by eapply steps_one.
Qed.

Lemma triple_retry_after P resp (Q : Z -> Prop) :
  (forall n, Q n) -> triple P (retry_after_seconds L resp) Q.
Proof.
  intros HQ. unfold retry_after_seconds.
  destruct (retry_wait L resp); [by apply triple_ret|apply triple_raise].
Qed.

Lemma triple_raise_for_status P resp (Q : unit -> Prop) :
  Q tt -> triple P (raise_for_status resp) Q.
Proof.
  intros HQ. unfold raise_for_status.
  destruct (_ && _); [apply triple_raise|by apply triple_ret].
Qed.

(** A fetch sleeps, prints and sends GETs for its own article only; it
    never writes the file. *)
Lemma triple_fetch suffix :
  triple (fetch_event suffix) (fetch_article_wikitext L W suffix) (fun _ => True).
Proof.
  unfold fetch_article_wikitext.
  eapply triple_bind with (Q1 := fun _ => True); [by apply triple_sleep|intros _ _].
  eapply triple_bind with (Q1 := fun _ => True);
    [by apply triple_session_get|intros resp _].
  eapply triple_bind with (Q1 := fun _ => True).
  - destruct (status_code resp =? 429); [|by apply triple_ret].
    eapply triple_bind with (Q1 := fun _ => True);
      [by apply triple_retry_after|intros wait _].
    eapply triple_bind with (Q1 := fun _ => True); [by apply triple_print|intros _ _].
    eapply triple_bind with (Q1 := fun _ => True); [by apply triple_sleep|intros _ _].
    by apply triple_session_get.
  - intros resp' _.
    eapply triple_bind with (Q1 := fun _ => True); [by apply triple_raise_for_status|intros _ _].
    destruct (body_has_error resp'); by apply triple_ret.
Qed.

(** An extraction sends one chat request, for its own country. *)
Lemma triple_extract name wikitext :
  triple (extract_event name) (extract_with_openai L W name wikitext) (fun _ => True).
Proof.
  unfold extract_with_openai.
  eapply triple_bind with (Q1 := fun _ => True);
    [by apply triple_chat|intros content _].
  by apply triple_lift_res.
Qed.

Lemma triple_extract_and_store a it wikitext ls :
  skips a it ls = false -> dry_run a = false ->
  triple (country_event a it ls) (extract_and_store L W it wikitext ls)
         (country_result a it ls).
Proof.
  intros Hskip Hdry. destruct it as [iso [name suffix]].
  unfold extract_and_store.
  eapply triple_bind with (Q1 := fun _ => True).
  { eapply triple_weaken; [apply triple_extract| |done].
    intros [] He; simpl in *; try done. }
  intros result _.
  destruct (truthy result).
  - destruct result; try apply triple_raise.
    eapply triple_bind with (Q1 := fun _ => True);
      [by apply triple_now|intros t1 _].
    eapply triple_bind with (Q1 := fun _ => True); [by apply triple_print|intros _ _].
    eapply triple_bind with (Q1 := fun _ => True);
      [by apply triple_now|intros t2 _].
    eapply triple_bind with (Q1 := fun _ => True).
    + apply triple_write_file; [|done]. simpl. eauto.
    + intros _ _. apply triple_ret. right. simpl. eauto.
  - eapply triple_bind with (Q1 := fun _ => True); [by apply triple_print|intros _ _].
    apply triple_ret. by left.
Qed.

(** One iteration of the loop. *)
Lemma triple_process_country a it ls :
  triple (country_event a it ls) (process_country L W a it ls)
         (country_result a it ls).
Proof.
  destruct (skips a it ls) eqn:Hskip;
    destruct it as [iso [name suffix]]; unfold process_country, skips in *;
    simpl in Hskip; rewrite Hskip.
  { eapply triple_bind with (Q1 := fun _ => True); [by apply triple_print|intros _ _].
    apply triple_ret. by left. }
  eapply triple_bind with (Q1 := fun _ => True); [by apply triple_print|intros _ _].
  eapply triple_bind with (Q1 := fun _ => True); [by apply triple_print|intros _ _].
  eapply triple_bind with (Q1 := fun _ => True).
  { eapply triple_weaken; [apply triple_fetch| |done].
    intros [] He; simpl in *; try done. }
  intros [wikitext|] _.
  - eapply triple_bind with (Q1 := fun _ => True); [by apply triple_print|intros _ _].
    destruct (dry_run a) eqn:Hdry; [apply triple_ret; by left|].
    eapply triple_bind with (Q1 := fun _ => True); [by apply triple_print|intros _ _].
    apply triple_try_except.
    + by apply (triple_extract_and_store a (iso, (name, suffix))).
    + intros e k Hk. destruct e; simpl in Hk; try done; injection Hk as <-;
        (eapply triple_bind with (Q1 := fun _ => True); [by apply triple_print|intros _ _]);
        apply triple_ret; by left.
  - eapply triple_bind with (Q1 := fun _ => True); [by apply triple_print|intros _ _].
    apply triple_ret. by left.
Qed.

(** The loop keeps an invariant that every iteration keeps. *)
Lemma triple_for_each (P : event -> Prop) (J : loop_state -> Prop) a countries :
  (forall it ls, it ∈ countries -> J ls -> triple P (process_country L W a it ls) J) ->
  forall ls, J ls -> triple P (for_each L W a countries ls) J.
Proof.
  induction countries as [|it rest IH]; intros Hstep ls HJ; simpl.
  - by apply triple_ret.
  - eapply triple_bind.
    + apply Hstep; [left|done].
    + intros ls' HJ'. apply IH; [|done].
      intros it' ls'' Hin. apply Hstep. by right.
Qed.

End ProgramTriples.

Section WholeRun.

Context (L : pylib) (W : world).

Lemma triple_print_table P rows :
  (forall m, P (EvPrint m)) -> triple P (print_table rows) (fun _ => True).
Proof.
  intros HP. induction rows as [|it rows IH]; simpl; [by apply triple_ret|].
  eapply triple_bind with (Q1 := fun _ => True); [by apply triple_print|by intros _ _].
Qed.

(** [collect] from a state: the loop invariant [J] holds of the document
    loaded from the file of that state, every iteration keeps it, and the
    final write is allowed for a document that satisfies it. *)
Lemma collect_steps (P : event -> Prop) (J : loop_state -> Prop) a countries s :
  (forall m, P (EvPrint m)) ->
  (forall t src model,
      J (LoopState (Document t src model (loaded_entries a (file s))) 0 0 0)) ->
  (forall it ls, it ∈ countries -> J ls -> triple P (process_country L W a it ls) J) ->
  (forall ls t, J ls -> dry_run a = false ->
                P (EvWrite (set_generated_at (metadata ls) t))) ->
  steps P s (collect L W a countries s).2.
Proof.
  intros Hprint HJ0 Hstep Hfinal.
  set (s1 := State (trace s) (n_get s) (n_chat s) (S (n_now s)) (file s)).
  set (md := Document (utc_now W (n_now s))
               (lit "Wikipedia (per-country vehicle registration plate articles)")
               (lit "gpt-4o-mini") (loaded_entries a (file s))).
  assert (Hs1 : steps P s s1) by (by exists []).
  eapply steps_trans; [exact Hs1|].
  change (collect L W a countries s)
    with ((for_each L W a countries (LoopState md 0 0 0) ≫= fun ls =>
           final_write W a ls ≫= fun ls => report a ls;; mret (Finished ls)) s1).
  apply (triple_bind P _ _ J (fun _ => True)).
  - apply triple_for_each; [done|apply HJ0].
  - intros ls HJ.
    eapply triple_bind with (Q1 := fun _ => True).
    + unfold final_write. destruct (dry_run a) eqn:Hdry; [by apply triple_ret|].
      eapply triple_bind with (Q1 := fun _ => True); [by apply triple_now|intros t _].
      eapply triple_bind with (Q1 := fun _ => True);
        [apply triple_write_file; auto|intros _ _; by apply triple_ret].
    + intros ls' _. unfold report.
      eapply triple_bind with (Q1 := fun _ => True); [|intros _ _; by apply triple_ret].
      eapply triple_bind with (Q1 := fun _ => True); [by apply triple_print|intros _ _].
      destruct (dry_run a); [by apply triple_ret|by apply triple_print].
Qed.

(** The same for a whole run. *)
Lemma run_steps (P : event -> Prop) (J : loop_state -> Prop) a f :
  (forall m, P (EvPrint m)) ->
  (forall d, P (EvMkdir d)) ->
  (dry_run a = false -> P EvClient) ->
  (forall t src model, J (LoopState (Document t src model (loaded_entries a f)) 0 0 0)) ->
  (forall countries it ls,
      select_countries L a = inr countries -> it ∈ countries -> J ls ->
      triple P (process_country L W a it ls) J) ->
  (forall ls t, J ls -> dry_run a = false ->
                P (EvWrite (set_generated_at (metadata ls) t))) ->
  steps P (initial_state f) (run L W a f).2.
Proof.
  intros Hprint Hmkdir Hclient HJ0 Hstep Hfinal.
  unfold run, main.
  destruct (api_key_missing W && negb (dry_run a)).
  { exists [EvPrint MsgKeyHint; EvPrint MsgKeyRequired]. split_and!; [done| |done].
    repeat constructor; auto. }
  set (s1 := State ((if dry_run a then [] else [EvClient]) ++ [EvMkdir (output_dir a)])
               0 0 0 f).
  assert (Hs1 : steps P (initial_state f) s1).
  { exists ((if dry_run a then [] else [EvClient]) ++ [EvMkdir (output_dir a)]).
    split_and!; [by rewrite app_nil_r| |by destruct (dry_run a)].
    destruct (dry_run a); repeat constructor; auto. }
  eapply steps_trans; [exact Hs1|].
  destruct (select_countries L a) as [code|countries] eqn:Hsel.
  - assert (Hrest : triple P
              (print (MsgUnknownCode code);; print MsgAvailableCodes;;
               print_table (sorted COUNTRIES);; mret UnknownCountry)
              (fun _ => True)).
    { eapply triple_bind with (Q1 := fun _ => True); [by apply triple_print|intros _ _].
      eapply triple_bind with (Q1 := fun _ => True); [by apply triple_print|intros _ _].
      eapply triple_bind with (Q1 := fun _ => True);
        [by apply triple_print_table|intros _ _; by apply triple_ret]. }
    destruct (Hrest s1) as [Hs _].
    destruct (dry_run a); exact Hs.
  - pose proof (collect_steps P J a countries s1 Hprint HJ0
                  (fun it ls => Hstep countries it ls eq_refl) Hfinal) as Hs.
    destruct (dry_run a); exact Hs.
Qed.

(** Events of a run, read off [steps] from the initial state. *)
Lemma steps_initial P f s :
  steps P (initial_state f) s ->
  Forall P (trace s) /\ exists evs, trace s = evs /\ file s = last_write evs f.
Proof.
  intros (evs & Ht & HP & Hf). simpl in *. rewrite app_nil_r in Ht. subst evs.
  split; [done|]. eauto.
Qed.

End WholeRun.

(* ===================================================================== *)
(** ** The static table *)
(* ===================================================================== *)

Lemma lookup_country_In code t info :
  lookup_country code t = Some info -> In (code, info) t.
Proof.
  induction t as [|[c i] t IH]; simpl; [done|].
  destruct (decide (c = code)) as [->|]; [intros [= ->]; by left|auto].
Qed.

(** No two rows of the table share a code, a name or an article suffix. *)
Lemma COUNTRIES_codes_NoDup : NoDup (map (fun it : item => it.1) COUNTRIES).
Proof. apply (bool_decide_unpack _). by vm_compute. Qed.








(* ===================================================================== *)
(** ** Dry runs *)
(* ===================================================================== *)

Lemma bind_Ok_inv {A B} (m : M A) (f : A -> M B) s b s' :
  (m ≫= f) s = (Ok b, s') -> exists a s1, m s = (Ok a, s1) /\ f a s1 = (Ok b, s').
Proof.
  unfold mbind, M_bind. destruct (m s) as [[a|e] s1]; [eauto|done].
Qed.

Ltac bind_inv H :=
  let a := fresh "a" in
  let s := fresh "s" in
  let H1 := fresh "Hm" in
  apply bind_Ok_inv in H as (a & s & H1 & H).

(** [collect] ends with [Finished] when it ends without an exception. *)
Lemma collect_Ok L W a countries s o s' :
  collect L W a countries s = (Ok o, s') -> exists ls, o = Finished ls.
Proof.
  intros H. unfold collect in H. do 4 bind_inv H.
  injection H as <- _. eauto.
Qed.

(** A run that gets past the credential check never reports a missing
    credential. *)
Lemma main_passes_check L W a s :
  api_key_missing W && negb (dry_run a) = false ->
  (main L W a s).1 <> Ok MissingCredential.
Proof.
  intros Hcheck Hr. unfold main in Hr. rewrite Hcheck in Hr.
  match type of Hr with (?m s).1 = _ => destruct (m s) as [r s'] eqn:H end.
  simpl in Hr. subst r. do 2 bind_inv H.
  destruct (select_countries L a) as [code|countries].
  - do 3 bind_inv H. done.
  - apply collect_Ok in H as [ls [=]].
Qed.

(** C8. In dry-run mode the extraction step is never entered: no LLM
    client is created and no chat request is sent, whatever the wiki
    answers; and the run does not stop at the credential check, whether or
    not the credential variable is set. *)
Theorem dry_run_never_extracts L W a f :
  dry_run a = true ->
  (run L W a f).1 <> Ok MissingCredential /\
  Forall (fun e => e <> EvClient /\ forall n w, e <> EvChat n w) (trace (run L W a f).2).
Proof.
  intros Hdry. split.
  - apply main_passes_check. rewrite Hdry. apply andb_false_r.
  - eapply steps_initial, (run_steps L W _ (fun _ => True)); try done.
    + congruence.
    + intros countries it ls _ _ _.
      eapply triple_weaken; [apply triple_process_country| |done].
      intros [] He; simpl in He; try done. destruct He as (_ & _ & Hd). congruence.
Qed.

Lemma dry_run_never_extracts_witness :
  let a := Args true None (lit "dataset") in
  dry_run a = true /\
  (run Sample.lib Sample.no_key_world a None).1 <> Ok MissingCredential /\
  Forall (fun e => e <> EvClient /\ forall n w, e <> EvChat n w)
         (trace (run Sample.lib Sample.no_key_world a None).2).
Proof.
  split; [reflexivity|].
  exact (dry_run_never_extracts Sample.lib Sample.no_key_world
           (Args true None (lit "dataset")) None eq_refl).
Defined.

(* ===================================================================== *)
(** ** Runs over the whole table: what was collected stays *)
(* ===================================================================== *)

Section Resume.

Context (L : pylib) (W : world).
Context (a : args) (iso : pystr) (e0 : json).
Hypothesis Hall : has_country a = false.




End Resume.




(* ===================================================================== *)
(** ** Lemmas on Python strings *)
(* ===================================================================== *)

Section Strings.

Implicit Types (s t p u v : list N) (c : N).

Lemma startswith_iff p s : startswith p s = true <-> exists v, s = p ++ v.
Proof.
  revert s. induction p as [|a p IH]; intros s; simpl.
  - split; eauto.
  - destruct s as [|b s]; [split; [done|by intros [v ?]]|].
    rewrite andb_true_iff, N.eqb_eq, IH. split.
    + intros [-> [v ->]]. eauto.
    + intros [v [= -> ->]]. eauto.
Qed.

Lemma startswith_app p v : startswith p (p ++ v) = true.
Proof. apply startswith_iff. eauto. Qed.

Lemma endswith_app p u : endswith p (u ++ p) = true.
Proof. unfold endswith. rewrite rev_app_distr. apply startswith_app. Qed.

(** [p in s] holds exactly when [p] occurs somewhere in [s]. *)
Lemma contains_iff p s : contains p s = true <-> exists u v, s = u ++ p ++ v.
Proof.
  induction s as [|b s IH]; simpl.
  - rewrite orb_false_r, startswith_iff. split.
    + intros [v ->]. by exists [], v.
    + intros (u & v & H). symmetry in H.
      apply app_eq_nil in H as [-> H]. exists v. done.
  - rewrite orb_true_iff, startswith_iff, IH. split.
    + intros [[v ->]|(u & v & ->)]; [by exists [], v|by exists (b :: u), v].
    + intros ([|x u] & v & H); simpl in H.
      * left. eauto.
      * injection H as -> ->. right. eauto.
Qed.

Lemma contains_false p s :
  contains p s = false <-> ~ exists u v, s = u ++ p ++ v.
Proof. rewrite <- contains_iff. by destruct (contains p s). Qed.

Lemma occurs_right c p a b u v :
  ~ In c a -> a ++ b = u ++ (c :: p) ++ v -> exists u', b = u' ++ (c :: p) ++ v.
Proof.
  intros Hc H. apply app_eq_app in H as [k [[Ha Hb]|[Hu Hb]]].
  - destruct k as [|x k]; simpl in *.
    + exists []. done.
    + exfalso. apply Hc. rewrite Ha, in_app_iff. right. injection Hb as -> _. by left.
  - eauto.
Qed.

Lemma occurs_left c p a b u v :
  ~ In c b -> a ++ b = u ++ (p ++ [c]) ++ v -> exists v', a = u ++ (p ++ [c]) ++ v'.
Proof.
  intros Hc H.
  assert (Hrev : rev b ++ rev a = rev v ++ (c :: rev p) ++ rev u).
  { transitivity (rev (a ++ b)).
    - by rewrite rev_app_distr.
    - rewrite H.
      rewrite !rev_app_distr.
      simpl.
      by rewrite <- !app_assoc. }
  apply occurs_right in Hrev as [u' Hu']; [|by rewrite <- in_rev].
  exists (rev u'). apply (f_equal (@rev N)) in Hu'.
  rewrite rev_involutive in Hu'. rewrite Hu'.
  rewrite ?rev_app_distr. simpl. rewrite ?rev_app_distr, ?rev_involutive.
  simpl. rewrite <- ?app_assoc. done.
Qed.

Lemma occurs_around c1 c2 p a m b u v :
  ~ In c1 m -> ~ In c2 m -> (length (c1 :: p ++ [c2]) <= length m)%nat ->
  a ++ m ++ b = u ++ (c1 :: p ++ [c2]) ++ v ->
  (exists u' v', a = u' ++ (c1 :: p ++ [c2]) ++ v') \/
  (exists u' v', b = u' ++ (c1 :: p ++ [c2]) ++ v').
Proof.
  intros H1 H2 Hlen H.
  apply app_eq_app in H as [l [[Ha H]|[Hu H]]].
  - (* the occurrence starts inside [a] *)
    apply app_eq_app in H as [k [[HP Hmb]|[Hl Hv]]].
    + (* and goes on into [m] *)
      destruct k as [|x k].
      { left. exists u, []. rewrite app_nil_r in HP. by rewrite Ha, HP, app_nil_r. }
      exfalso.
      destruct (exists_last (l := x :: k)) as (k' & y & Hk); [done|].
      rewrite Hk in HP, Hmb.
      change (c1 :: p ++ [c2]) with ((c1 :: p) ++ [c2]) in HP.
      rewrite app_assoc in HP. apply app_inj_tail in HP as [HP <-].
      assert (Hk_len : (length (k' ++ [c2]) <= length m)%nat).
      { etransitivity; [|exact Hlen].
        change (c1 :: p ++ [c2]) with ((c1 :: p) ++ [c2]).
        rewrite HP, !length_app. lia. }
      apply app_eq_app in Hmb as [j [[Hm _]|[Hk' _]]].
      * apply H2. rewrite Hm, !in_app_iff. left. right. by left.
      * apply (f_equal (@length N)) in Hk' as Hlen'.
        destruct j as [|z j]; [|rewrite Hlen', length_app in Hk_len; simpl in Hk_len; lia].
        rewrite app_nil_r in Hk'. apply H2. rewrite <- Hk', in_app_iff. right. by left.
    + left. exists u, k. rewrite Ha, Hl. done.
  - (* the occurrence starts at or after the start of [m] *)
    right. apply (occurs_right c1 (p ++ [c2]) m b l v H1) in H as [u' ->]. eauto.
Qed.

(** [lstrip], [rstrip], [strip] *)

Lemma lstrip_spaces u s : Forall (fun c => isspace c = true) u -> lstrip (u ++ s) = lstrip s.
Proof. induction 1 as [|c u Hc _ IH]; simpl; [done|]. by rewrite Hc. Qed.

Lemma lstrip_nonspace c s : isspace c = false -> lstrip (c :: s) = c :: s.
Proof. intros Hc. simpl. by rewrite Hc. Qed.

Lemma lstrip_snoc_nonspace s c : isspace c = false -> lstrip (s ++ [c]) = lstrip s ++ [c].
Proof.
  intros Hc. induction s as [|a s IH]; simpl; [by rewrite Hc|].
  by destruct (isspace a).
Qed.

Lemma rstrip_spaces s u : Forall (fun c => isspace c = true) u -> rstrip (s ++ u) = rstrip s.
Proof.
  intros Hu. unfold rstrip. rewrite rev_app_distr, lstrip_spaces; [done|].
  by apply Forall_rev.
Qed.

Lemma rstrip_snoc_nonspace s c : isspace c = false -> rstrip (s ++ [c]) = s ++ [c].
Proof.
  intros Hc. unfold rstrip. rewrite rev_app_distr. simpl.
  rewrite Hc. simpl. by rewrite rev_involutive.
Qed.

Lemma rstrip_cons_nonspace c s : isspace c = false -> rstrip (c :: s) = c :: rstrip s.
Proof.
  intros Hc. unfold rstrip. simpl.
  rewrite lstrip_snoc_nonspace by done. rewrite rev_app_distr. done.
Qed.

Lemma strip_spaces_right s u : Forall (fun c => isspace c = true) u -> strip (s ++ u) = strip s.
Proof. intros Hu. unfold strip. by rewrite rstrip_spaces. Qed.

(** A text that begins and ends with a character that is no white
    space is left alone. *)
Lemma strip_id c1 s c2 :
  isspace c1 = false -> isspace c2 = false ->
  strip (c1 :: s ++ [c2]) = c1 :: s ++ [c2].
Proof.
  intros H1 H2. unfold strip.
  change (c1 :: s ++ [c2]) with ((c1 :: s) ++ [c2]).
  rewrite rstrip_snoc_nonspace by done. simpl. by rewrite H1.
Qed.

Lemma In_lstrip c s : In c (lstrip s) -> In c s.
Proof.
  induction s as [|a s IH]; simpl; [done|].
  destruct (isspace a); [auto|done].
Qed.

Lemma In_strip c s : In c (strip s) -> In c s.
Proof.
  unfold strip, rstrip. intros H%In_lstrip. apply in_rev in H.
  apply In_lstrip in H. by apply in_rev.
Qed.

Lemma rstrip_nonspace_prefix p v :
  Forall (fun c => isspace c = false) p -> rstrip (p ++ v) = p ++ rstrip v.
Proof.
  induction 1 as [|c p Hc _ IH]; simpl; [done|].
  by rewrite rstrip_cons_nonspace, IH.
Qed.

Lemma strip_nonspace_prefix c p v :
  Forall (fun c => isspace c = false) (c :: p) ->
  strip (c :: p ++ v) = c :: p ++ rstrip v.
Proof.
  intros Hp. unfold strip.
  change (c :: p ++ v) with ((c :: p) ++ v).
  rewrite rstrip_nonspace_prefix by done. simpl.
  apply Forall_inv in Hp. by rewrite Hp.
Qed.

(** [cut_at] and [split1] *)

Lemma cut_at_None c s : ~ In c s -> cut_at c s = None.
Proof.
  induction s as [|a s IH]; simpl; [done|]. intros Hc.
  destruct (N.eqb_spec a c) as [->|Hne]; [tauto|].
  rewrite IH; [done|tauto].
Qed.

Lemma cut_at_first c u s : ~ In c u -> cut_at c (u ++ c :: s) = Some (u, s).
Proof.
  induction u as [|a u IH]; simpl; intros Hc.
  - by rewrite N.eqb_refl.
  - destruct (N.eqb_spec a c) as [->|Hne]; [tauto|].
    rewrite IH; [done|tauto].
Qed.

Lemma slice_drop_last_app s p n : length p = n -> slice_drop_last n (s ++ p) = s.
Proof.
  intros <-. unfold slice_drop_last. apply take_app_length'.
  rewrite length_app. lia.
Qed.

End Strings.

Lemma not_In_check (c : N) (l : list N) :
  forallb (fun x => negb (N.eqb x c)) l = true -> ~ In c l.
Proof.
  intros Hall Hin. rewrite forallb_forall in Hall.
  specialize (Hall c Hin). by rewrite N.eqb_refl in Hall.
Qed.

Lemma FENCE_chars : FENCE = [96; 96; 96]%N.
Proof. reflexivity. Qed.

Lemma strip_fences_plain t : startswith FENCE t = false -> strip_fences t = Ok t.
Proof. unfold strip_fences. by intros ->. Qed.

(** What the fence-stripping lines make of a fenced text. *)
Lemma strip_fences_fenced lang body ws :
  ~ In 10%N lang -> Forall (fun c => isspace c = true) ws ->
  strip_fences (FENCE ++ lang ++ nl ++ body ++ ws ++ FENCE) = Ok (strip body).
Proof.
  intros Hlang Hws. unfold strip_fences.
  rewrite startswith_app. unfold split1.
  replace (FENCE ++ lang ++ nl ++ body ++ ws ++ FENCE)
    with ((FENCE ++ lang) ++ 10%N :: (body ++ ws) ++ FENCE)
    by (unfold nl; by rewrite <- !app_assoc).
  rewrite cut_at_first.
  - simpl. rewrite endswith_app, slice_drop_last_app by done.
    by rewrite strip_spaces_right.
  - rewrite in_app_iff. intros [H|H]; [|done].
    revert H. by apply not_In_check.
Qed.

(** C6. A reply that wraps a JSON text in a code fence -- an opening
    line of three backticks and an optional language tag, and a closing
    fence set off by white space -- parses to what the JSON text alone
    parses to.  A JSON text never begins with a backtick; that is all the
    statement needs of it. *)
Theorem fenced_reply_parses_like_bare L lang J ws :
  ~ In 10%N lang ->
  Forall (fun c => isspace c = true) ws ->
  startswith FENCE (strip J) = false ->
  parse_reply L (FENCE ++ lang ++ nl ++ J ++ ws ++ FENCE) = parse_reply L J.
Proof.
  intros Hlang Hws HJ. unfold parse_reply.
  rewrite (strip_fences_plain (strip J)) by done.
  replace (strip (FENCE ++ lang ++ nl ++ J ++ ws ++ FENCE))
    with (FENCE ++ lang ++ nl ++ J ++ ws ++ FENCE).
  - by rewrite strip_fences_fenced.
  - rewrite FENCE_chars.
    assert (Hshape : ([96; 96; 96] ++ lang ++ nl ++ J ++ ws ++ [96; 96; 96])%N
                     = (96 :: ([96; 96] ++ lang ++ nl ++ J ++ ws ++ [96; 96]) ++ [96])%N).
    { simpl. do 3 f_equal. rewrite <- !app_assoc. f_equal. simpl. f_equal.
      by rewrite <- !app_assoc. }
    rewrite Hshape. by rewrite strip_id.
Qed.

Lemma fenced_reply_parses_like_bare_witness :
  let reply := FENCE ++ lit "json" ++ nl ++ Sample.object_text ++ nl ++ FENCE in
  ~ In 10%N (lit "json") /\
  Forall (fun c => isspace c = true) nl /\
  startswith FENCE (strip Sample.object_text) = false /\
  parse_reply Sample.lib reply = parse_reply Sample.lib Sample.object_text /\
  parse_reply Sample.lib Sample.object_text = Ok Sample.object_value.
Proof.
  assert (Hlang : ~ In 10%N (lit "json")) by (by apply not_In_check).
  assert (Hws : Forall (fun c => isspace c = true) nl) by (by repeat constructor).
  split; [exact Hlang|]. split; [exact Hws|]. split; [reflexivity|].
  split; [|by vm_compute].
  exact (fenced_reply_parses_like_bare Sample.lib (lit "json") Sample.object_text nl
           Hlang Hws eq_refl).
Defined.

Lemma parse_reply_bare_fence L content :
  startswith FENCE content = true -> ~ In 10%N content ->
  parse_reply L content = Raise IndexError.
Proof.
  intros [v ->]%startswith_iff Hnl. unfold parse_reply.
  assert (Hstrip : strip (FENCE ++ v) = FENCE ++ rstrip v).
  { rewrite FENCE_chars. apply (strip_nonspace_prefix 96%N [96; 96]%N).
    by repeat constructor. }
  assert (Hnl' : ~ In 10%N (FENCE ++ rstrip v)).
  { rewrite <- Hstrip. intros H. by apply In_strip in H. }
  rewrite Hstrip. unfold strip_fences, split1.
  by rewrite startswith_app, cut_at_None.
Qed.

(** C10. A reply that begins with the three-backtick fence marker and
    holds no newline makes the fence-stripping lines raise [IndexError]:
    [split] gives a single piece and piece 1 is asked for.  That exception
    is none of the two the loop handles, so the [try] statement lets it
    through instead of counting a failure for the country. *)
Theorem bare_fence_raises_IndexError L W content it wikitext ls s :
  startswith FENCE content = true ->
  ~ In 10%N content ->
  chat_create W (n_chat s) (extraction_prompt it.2.1 wikitext) = Some content ->
  parse_reply L content = Raise IndexError /\
  on_extract_error ls IndexError = None /\
  try_extract L W it wikitext ls s =
    (Raise IndexError,
     State (EvChat it.2.1 (truncate wikitext) :: trace s)
           (n_get s) (S (n_chat s)) (n_now s) (file s)).
Proof.
  intros Hfence Hnl Hchat.
  pose proof (parse_reply_bare_fence L content Hfence Hnl) as Hparse.
  split_and!; [done|done|].
  destruct it as [iso [name suffix]]. simpl in *.
  unfold try_extract, try_except, extract_and_store, extract_with_openai,
    chat_completions_create, mbind, M_bind, lift_res.
  unfold extraction_prompt in Hchat. by rewrite Hchat, Hparse.
Qed.

Lemma bare_fence_raises_IndexError_witness :
  let content := lit "```json" in
  let s := initial_state None in
  startswith FENCE content = true /\
  ~ In 10%N content /\
  chat_create Sample.bare_fence_world (n_chat s)
    (extraction_prompt Sample.germany.2.1 (lit "text")) = Some content /\
  parse_reply Sample.lib content = Raise IndexError /\
  (try_extract Sample.lib Sample.bare_fence_world Sample.germany (lit "text")
     Sample.empty_loop_state s).1 = Raise IndexError.
Proof.
  assert (Hnl : ~ In 10%N (lit "```json")) by (by apply not_In_check).
  split; [reflexivity|]. split; [exact Hnl|]. split; [reflexivity|].
  pose proof (bare_fence_raises_IndexError Sample.lib Sample.bare_fence_world
                (lit "```json") Sample.germany (lit "text")
                Sample.empty_loop_state (initial_state None)
                eq_refl Hnl eq_refl) as (Hparse & _ & Htry).
  split; [exact Hparse|]. by rewrite Htry.
Defined.

(** The request [extract_with_openai] sends carries the prompt built from
    the country name and the wikitext. *)
Lemma extract_sends_prompt L W name wikitext s :
  extract_with_openai L W name wikitext s =
  (match chat_create W (n_chat s) (extraction_prompt name wikitext) with
   | Some content => parse_reply L content
   | None => Raise APIError
   end,
   State (EvChat name (truncate wikitext) :: trace s)
         (n_get s) (S (n_chat s)) (n_now s) (file s)).
Proof.
  unfold extract_with_openai, chat_completions_create, mbind, M_bind, lift_res,
    extraction_prompt.
  by destruct (chat_create W _ _).
Qed.

Lemma TRUNCATION_NOTE_shape :
  TRUNCATION_NOTE = (91 :: lit "... article truncated ..." ++ [93])%N.
Proof. reflexivity. Qed.

(** The template has no square bracket of its own. *)
Lemma template_brackets :
  ~ In 91%N PROMPT_HEAD /\ ~ In 91%N PROMPT_FIELDS /\
  ~ In 93%N PROMPT_FIELDS /\ ~ In 93%N PROMPT_TAIL.
Proof. split_and!; by apply not_In_check. Qed.

Lemma note_in_prompt name wikitext u v :
  format_prompt name wikitext = u ++ TRUNCATION_NOTE ++ v ->
  (exists u' v', name = u' ++ TRUNCATION_NOTE ++ v') \/
  (exists u' v', wikitext = u' ++ TRUNCATION_NOTE ++ v').
Proof.
  destruct template_brackets as (Hhead & Hfields1 & Hfields2 & Htail).
  unfold format_prompt. rewrite TRUNCATION_NOTE_shape. intros H.
  replace (PROMPT_HEAD ++ name ++ PROMPT_FIELDS ++ wikitext ++ PROMPT_TAIL)
    with ((PROMPT_HEAD ++ name) ++ PROMPT_FIELDS ++ (wikitext ++ PROMPT_TAIL)) in H
    by (by rewrite <- !app_assoc).
  apply occurs_around in H as [(u' & v' & H)|(u' & v' & H)]; [| |done|done|].
  - left. apply occurs_right in H as [u'' H]; eauto.
  - right. change (91 :: lit "... article truncated ..." ++ [93])%N
      with ((91 :: lit "... article truncated ...") ++ [93])%N in H.
    apply occurs_left in H as [v'' H]; eauto.
  - apply Nat.leb_le. by vm_compute.
Qed.

(** C5, as the code has it.  A wikitext over the budget of 80000
    characters is cut to its first 80000 characters and the truncation
    marker is appended before the prompt is built, so the prompt contains
    the marker.  A wikitext at or under the budget goes into the prompt as
    it is, nothing appended; the prompt then contains the marker only if
    the bracketed note of the marker already stands in the country name
    or in the wikitext. *)
Theorem prompt_truncation name wikitext :
  (len wikitext > max_chars ->
   truncate wikitext = slice_to max_chars wikitext ++ TRUNCATION_MARKER /\
   len (slice_to max_chars wikitext) = max_chars /\
   contains TRUNCATION_MARKER (extraction_prompt name wikitext) = true) /\
  (len wikitext <= max_chars ->
   extraction_prompt name wikitext = format_prompt name wikitext /\
   (contains TRUNCATION_NOTE name = false ->
    contains TRUNCATION_NOTE wikitext = false ->
    contains TRUNCATION_MARKER (extraction_prompt name wikitext) = false)).
Proof.
  unfold extraction_prompt, truncate. rewrite Z.gtb_ltb.
  split; intros Hlen; destruct (Z.ltb_spec max_chars (len wikitext));
    try (unfold max_chars in *; lia).
  - split_and!; [done| |].
    + unfold slice_to, len, max_chars in *. rewrite length_take. lia.
    + apply contains_iff.
      exists (PROMPT_HEAD ++ name ++ PROMPT_FIELDS ++ slice_to max_chars wikitext), PROMPT_TAIL.
      unfold format_prompt. by rewrite <- !app_assoc.
  - split; [done|]. intros Hname Hwiki.
    apply contains_false. intros (u & v & Hocc).
    unfold TRUNCATION_MARKER in Hocc.
    replace (u ++ (nl ++ nl ++ TRUNCATION_NOTE) ++ v)
      with ((u ++ nl ++ nl) ++ TRUNCATION_NOTE ++ v) in Hocc
      by (by rewrite <- !app_assoc).
    apply note_in_prompt in Hocc as [Hocc|Hocc].
    + by apply contains_false in Hname.
    + by apply contains_false in Hwiki.
Qed.

Lemma prompt_truncation_witness :
  (len Sample.long_wikitext > max_chars /\
   contains TRUNCATION_MARKER
     (extraction_prompt (lit "Germany") Sample.long_wikitext) = true) /\
  (len (lit "{{Infobox}}") <= max_chars /\
   contains TRUNCATION_NOTE (lit "Germany") = false /\
   contains TRUNCATION_NOTE (lit "{{Infobox}}") = false /\
   contains TRUNCATION_MARKER
     (extraction_prompt (lit "Germany") (lit "{{Infobox}}")) = false).
Proof.
  assert (Hlong : len Sample.long_wikitext > max_chars) by (by vm_compute).
  assert (Hshort : len (lit "{{Infobox}}") <= max_chars) by (by vm_compute).
  split.
  - split; [exact Hlong|].
    exact (proj2 (proj2 (proj1 (prompt_truncation (lit "Germany") Sample.long_wikitext)
                           Hlong))).
  - split; [exact Hshort|]. split; [reflexivity|]. split; [reflexivity|].
    exact (proj2 (proj2 (prompt_truncation (lit "Germany") (lit "{{Infobox}}")) Hshort)
             eq_refl eq_refl).
Defined.

(** A short wikitext that starts with the bracketed note: nothing is
    appended, and yet the prompt contains the marker, whose two newlines
    are the end of the template's line before the wikitext. *)
Lemma short_wikitext_with_marker_in_prompt :
  len TRUNCATION_NOTE <= max_chars /\
  truncate TRUNCATION_NOTE = TRUNCATION_NOTE /\
  contains TRUNCATION_MARKER TRUNCATION_NOTE = false /\
  contains TRUNCATION_MARKER (extraction_prompt (lit "Germany") TRUNCATION_NOTE) = true.
Proof. by vm_compute. Qed.

(* ===================================================================== *)
(** ** The fetcher *)
(* ===================================================================== *)



(* ===================================================================== *)
(** ** Failures inside the loop *)
(* ===================================================================== *)

(** C2, as the code has it.  For a country that is not skipped: when the
    fetch finds no article, when [json.loads] rejects the model's reply,
    or when the LLM API raises its error, the failure counter goes up by
    one and the loop goes on with the next country.  When the fetch
    raises -- an HTTP error status is raised by [raise_for_status] -- no
    handler is in the way: the exception leaves the loop, the counter is
    not touched and no further country is processed. *)
Theorem failures_counted_except_fetch_errors L W a it rest ls s :
  skips a it ls = false ->
  let s1 := after (print (MsgCountry it.1 it.2.1);;
                   print (MsgFetching (article_title it.2.2))) s in
  (forall s2,
      fetch_article_wikitext L W it.2.2 s1 = (Ok None, s2) ->
      for_each L W a (it :: rest) ls s =
      for_each L W a rest (count_failed ls) (after (print MsgNotFound) s2)) /\
  (forall wikitext s2 s4,
      dry_run a = false ->
      fetch_article_wikitext L W it.2.2 s1 = (Ok (Some wikitext), s2) ->
      let s3 := after (print (MsgWikitextLen (len wikitext));; print MsgExtracting) s2 in
      (extract_with_openai L W it.2.1 wikitext s3 = (Raise JSONDecodeError, s4) ->
       for_each L W a (it :: rest) ls s =
       for_each L W a rest (count_failed ls) (after (print MsgParseFailed) s4)) /\
      (extract_with_openai L W it.2.1 wikitext s3 = (Raise APIError, s4) ->
       for_each L W a (it :: rest) ls s =
       for_each L W a rest (count_failed ls) (after (print MsgAPIError) s4))) /\
  (forall e s2,
      fetch_article_wikitext L W it.2.2 s1 = (Raise e, s2) ->
      for_each L W a (it :: rest) ls s = (Raise e, s2)).
Proof.
  destruct it as [iso [name suffix]]. unfold skips. simpl. intros Hskip.
  split_and!.
  - intros s2 Hfetch.
    unfold process_country, mbind, M_bind, after in *. rewrite Hskip. simpl in *.
    by rewrite Hfetch.
  - intros wikitext s2 s4 Hdry Hfetch. split; intros Hextract;
      unfold process_country, try_extract, try_except, extract_and_store,
        mbind, M_bind, after in *; rewrite Hskip; simpl in *;
      rewrite Hfetch, Hdry; simpl; by rewrite Hextract.
  - intros e s2 Hfetch.
    unfold process_country, mbind, M_bind, after in *. rewrite Hskip. simpl in *.
    by rewrite Hfetch.
Qed.

Lemma failures_counted_except_fetch_errors_witness :
  let a := Args false None (lit "dataset") in
  let it := Sample.germany in
  let ls := Sample.empty_loop_state in
  let s := initial_state None in
  let s1 := after (print (MsgCountry it.1 it.2.1);;
                   print (MsgFetching (article_title it.2.2))) s in
  let wikitext := lit "wikitext of " ++ article_title it.2.2 in
  let s2 := after (fetch_article_wikitext Sample.lib Sample.good_world it.2.2) s1 in
  let s3 := after (print (MsgWikitextLen (len wikitext));; print MsgExtracting) s2 in
  let missing := after (fetch_article_wikitext Sample.lib Sample.no_article_world it.2.2) s1 in
  let chatty := after (extract_with_openai Sample.lib Sample.chatty_world it.2.1 wikitext) s3 in
  let down := after (extract_with_openai Sample.lib Sample.api_down_world it.2.1 wikitext) s3 in
  skips a it ls = false /\
  (fetch_article_wikitext Sample.lib Sample.no_article_world it.2.2 s1 = (Ok None, missing) /\
   for_each Sample.lib Sample.no_article_world a [it] ls s =
   (Ok (count_failed ls), after (print MsgNotFound) missing)) /\
  (extract_with_openai Sample.lib Sample.chatty_world it.2.1 wikitext s3
   = (Raise JSONDecodeError, chatty) /\
   for_each Sample.lib Sample.chatty_world a [it] ls s =
   (Ok (count_failed ls), after (print MsgParseFailed) chatty)) /\
  (extract_with_openai Sample.lib Sample.api_down_world it.2.1 wikitext s3
   = (Raise APIError, down) /\
   for_each Sample.lib Sample.api_down_world a [it] ls s =
   (Ok (count_failed ls), after (print MsgAPIError) down)).
Proof.
  intros a it ls s s1 wikitext s2 s3 missing chatty down.
  assert (Hskip : skips a it ls = false) by reflexivity.
  assert (Hmissing : fetch_article_wikitext Sample.lib Sample.no_article_world it.2.2 s1
                     = (Ok None, missing)) by (vm_compute; reflexivity).
  assert (Hchatty : extract_with_openai Sample.lib Sample.chatty_world it.2.1 wikitext s3
                    = (Raise JSONDecodeError, chatty)) by (vm_compute; reflexivity).
  assert (Hdown : extract_with_openai Sample.lib Sample.api_down_world it.2.1 wikitext s3
                  = (Raise APIError, down)) by (vm_compute; reflexivity).
  split; [exact Hskip|]. split; [|split].
  - split; [exact Hmissing|].
    exact (proj1 (failures_counted_except_fetch_errors
                    Sample.lib Sample.no_article_world a it [] ls s Hskip)
                 missing Hmissing).
  - split; [exact Hchatty|].
    refine (proj1 (proj1 (proj2 (failures_counted_except_fetch_errors
                    Sample.lib Sample.chatty_world a it [] ls s Hskip))
                 wikitext s2 chatty eq_refl _) Hchatty).
    vm_compute. reflexivity.
  - split; [exact Hdown|].
    refine (proj2 (proj1 (proj2 (failures_counted_except_fetch_errors
                    Sample.lib Sample.api_down_world a it [] ls s Hskip))
                 wikitext s2 down eq_refl _) Hdown).
    vm_compute. reflexivity.
Defined.

(** The wiki answers the first request of a full run with status 500: the
    run ends with the HTTP error, after a single request. *)
Lemma fetch_error_aborts_batch :
  let r := run Sample.lib Sample.http500_world (Args false None (lit "dataset")) None in
  r.1 = Raise (HTTPError 500) /\
  requested (history r.2) = [article_title (lit "Albania")] /\
  length COUNTRIES = 44%nat.
Proof. vm_compute. done. Qed.

(* ===================================================================== *)
(** ** The final write *)
(* ===================================================================== *)





(* ===================================================================== *)
(** ** Unknown country codes *)
(* ===================================================================== *)

Lemma insert_sorted_Permutation x l : Permutation (x :: l) (insert_sorted x l).
Proof.
  induction l as [|y l IH]; simpl; [done|].
  destruct (item_leb x y); [done|].
  rewrite perm_swap. by constructor.
Qed.

Lemma sorted_Permutation l : Permutation l (sorted l).
Proof.
  induction l as [|x l IH]; simpl; [done|].
  rewrite <- insert_sorted_Permutation. by constructor.
Qed.

Lemma increasing_codes_Sorted l : increasing_codes l = true -> Sorted code_lt l.
Proof.
  induction l as [|x l IH]; [constructor|].
  simpl. destruct l as [|y l]; [repeat constructor|].
  destruct (PyStr.compare x.1 y.1) eqn:Hxy; try done.
  intros Hl. constructor; [by apply IH|by constructor].
Qed.

(** The table as [sorted] prints it is the whole table, in strictly
    increasing order of the codes. *)
Lemma sorted_COUNTRIES :
  Sorted code_lt (sorted COUNTRIES) /\ Permutation COUNTRIES (sorted COUNTRIES).
Proof.
  split; [|apply sorted_Permutation].
  apply increasing_codes_Sorted. by vm_compute.
Qed.

Lemma print_table_run rows s :
  print_table rows s =
  (Ok tt, State (rev (map (fun it => EvPrint (MsgTableRow (table_row it))) rows) ++ trace s)
                (n_get s) (n_chat s) (n_now s) (file s)).
Proof.
  revert s. induction rows as [|it rows IH]; intros s; simpl.
  - by destruct s.
  - unfold mbind, M_bind. simpl. rewrite IH. simpl. by rewrite <- app_assoc.
Qed.

Lemma printed_app evs1 evs2 : printed (evs1 ++ evs2) = printed evs1 ++ printed evs2.
Proof.
  induction evs1 as [|e evs1 IH]; simpl; [done|].
  destruct e; simpl; by rewrite ?IH.
Qed.

Lemma printed_rows rows :
  printed (map (fun it => EvPrint (MsgTableRow (table_row it))) rows)
  = map (fun it => MsgTableRow (table_row it)) rows.
Proof. induction rows as [|it rows IH]; simpl; by rewrite ?IH. Qed.

Lemma Forall_not_network_rows rows :
  Forall (fun e => is_network e = false)
         (map (fun it => EvPrint (MsgTableRow (table_row it))) rows).
Proof. induction rows; simpl; by constructor. Qed.

Lemma select_countries_unknown L a c :
  country a = Some c -> c <> [] -> lookup_country (str_upper L c) COUNTRIES = None ->
  select_countries L a = inl (str_upper L c).
Proof.
  intros Hc Hne Hlk. unfold select_countries. rewrite Hc.
  destruct c; [done|]. by rewrite Hlk.
Qed.

(** The early return on an unknown code, for any rows to print. *)
Lemma unknown_code_run code rows s :
  (print (MsgUnknownCode code);; print MsgAvailableCodes;;
   print_table rows;; mret UnknownCountry) s =
  (Ok UnknownCountry,
   State (rev (map (fun it => EvPrint (MsgTableRow (table_row it))) rows)
            ++ EvPrint MsgAvailableCodes :: EvPrint (MsgUnknownCode code) :: trace s)
         (n_get s) (n_chat s) (n_now s) (file s)).
Proof.
  unfold mbind, M_bind. simpl. by rewrite print_table_run.
Qed.

(** C9, as the code has it.  A run that selects a single country by a
    non-empty code which, once upper-cased, is not in the static table ends
    before any network call and leaves the file alone.  When the credential
    check passes (the credential is set, or the run is a dry run) it ends
    on the unknown code, having printed the code, a heading and the whole
    table in increasing order of the codes.  When the credential check
    fails, the run has ended on that check before it looks at the code:
    the table is not printed. *)
Theorem unknown_country_aborts L W a f c :
  country a = Some c ->
  c <> [] ->
  lookup_country (str_upper L c) COUNTRIES = None ->
  Forall (fun e => is_network e = false) (trace (run L W a f).2) /\
  file (run L W a f).2 = f /\
  (api_key_missing W && negb (dry_run a) = false ->
   (run L W a f).1 = Ok UnknownCountry /\
   printed (history (run L W a f).2) =
     MsgUnknownCode (str_upper L c) :: MsgAvailableCodes ::
     map (fun it => MsgTableRow (table_row it)) (sorted COUNTRIES)) /\
  (api_key_missing W && negb (dry_run a) = true ->
   (run L W a f).1 = Ok MissingCredential /\
   printed (history (run L W a f).2) = [MsgKeyRequired; MsgKeyHint]) /\
  Sorted code_lt (sorted COUNTRIES) /\
  Permutation COUNTRIES (sorted COUNTRIES).
Proof.
  intros Hc Hne Hlk.
  pose proof (select_countries_unknown L a c Hc Hne Hlk) as Hsel.
  pose proof sorted_COUNTRIES as [Hsorted Hperm].
  unfold run, main, history. rewrite Hsel.
  generalize dependent (sorted COUNTRIES). intros rows Hsorted Hperm.
  destruct (api_key_missing W && negb (dry_run a)) eqn:Hcheck.
  - simpl. split_and!; try done. by repeat constructor.
  - assert (Hrun : exists evs,
               Forall (fun e => is_network e = false) evs /\
               printed (rev evs) = [] /\
               (emit (EvMkdir (output_dir a));;
                (if dry_run a then mret tt else emit EvClient);;
                print (MsgUnknownCode (str_upper L c));; print MsgAvailableCodes;;
                print_table rows;; mret UnknownCountry) (initial_state f) =
               (Ok UnknownCountry,
                State (rev (map (fun it => EvPrint (MsgTableRow (table_row it))) rows)
                         ++ EvPrint MsgAvailableCodes
                         :: EvPrint (MsgUnknownCode (str_upper L c)) :: evs)
                      0 0 0 f)).
    { destruct (dry_run a).
      - exists [EvMkdir (output_dir a)]. split_and!; [by repeat constructor|done|].
        unfold mbind at 1 2, M_bind at 1 2. simpl. by rewrite unknown_code_run.
      - exists [EvClient; EvMkdir (output_dir a)].
        split_and!; [by repeat constructor|done|].
        unfold mbind at 1 2, M_bind at 1 2. simpl. by rewrite unknown_code_run. }
    destruct Hrun as (evs & Hnet & Hprinted & ->). simpl.
    split_and!; try done.
    + apply Forall_app. split; [apply Forall_rev, Forall_not_network_rows|].
      by repeat constructor.
    + intros _. split; [done|].
      rewrite rev_app_distr, rev_involutive. simpl.
      rewrite <- !app_assoc, !printed_app, Hprinted. simpl.
      by rewrite printed_rows.
Qed.

Lemma unknown_country_aborts_witness :
  let a := Args false (Some (lit "zz")) (lit "dataset") in
  let r := run Sample.lib Sample.good_world a (Some Sample.france_doc) in
  country a = Some (lit "zz") /\
  lit "zz" <> [] /\
  lookup_country (str_upper Sample.lib (lit "zz")) COUNTRIES = None /\
  Forall (fun e => is_network e = false) (trace r.2) /\
  file r.2 = Some Sample.france_doc /\
  r.1 = Ok UnknownCountry.
Proof.
  split; [reflexivity|]. split; [discriminate|]. split; [reflexivity|].
  pose proof (unknown_country_aborts Sample.lib Sample.good_world
                (Args false (Some (lit "zz")) (lit "dataset"))
                (Some Sample.france_doc) (lit "zz")
                eq_refl ltac:(discriminate) eq_refl) as (Hnet & Hfile & Hpass & _).
  exact (conj Hnet (conj Hfile (proj1 (Hpass eq_refl)))).
Defined.

(** Without the credential variable, a run that asks for an unknown code
    ends on the credential check: the table is not printed. *)
Lemma unknown_code_without_credential :
  let a := Args false (Some (lit "ZZ")) (lit "dataset") in
  let r := run Sample.lib Sample.no_key_world a None in
  lookup_country (str_upper Sample.lib (lit "ZZ")) COUNTRIES = None /\
  r.1 = Ok MissingCredential /\
  printed (history r.2) = [MsgKeyRequired; MsgKeyHint].
Proof. vm_compute. done. Qed.

(* ===================================================================== *)
(** ** Single-country runs *)
(* ===================================================================== *)

(** A run for a single known country never skips it: the article is
    requested whatever the persisted document holds. *)
Lemma single_country_never_skipped a it ls :
  has_country a = true -> skips a it ls = false.
Proof. unfold skips. intros ->. apply andb_false_r. Qed.

(** C1: the code at work.  The persisted document holds an entry for
    France; the run is for Germany alone, credential set, every article
    there, the model answering with a JSON object.  Germany is fetched and
    extracted, and the document the run leaves behind has an entry for
    Germany and none for France. *)
Theorem single_country_run_drops_other_entries :
  let a := Args false (Some (lit "DE")) (lit "dataset") in
  let r := run Sample.lib Sample.good_world a (Some Sample.france_doc) in
  entries Sample.france_doc !! lit "FR" = Some Sample.france_entry /\
  requested (history r.2) = [article_title (lit "Germany")] /\
  exists ls d,
    r.1 = Ok (Finished ls) /\
    file r.2 = Some d /\
    is_Some (entries d !! lit "DE") /\
    entries d !! lit "FR" = None.
Proof.
  split; [by vm_compute|]. split; [by vm_compute|].
  destruct (run Sample.lib Sample.good_world
              (Args false (Some (lit "DE")) (lit "dataset"))
              (Some Sample.france_doc)) as [r s] eqn:Hrun.
  vm_compute in Hrun. injection Hrun as <- <-.
  eexists _, _. split; [reflexivity|]. split; [reflexivity|].
  split; [|by vm_compute]. eexists. vm_compute. reflexivity.
Qed.

Lemma select_countries_known L a c info :
  country a = Some c -> c <> [] ->
  lookup_country (str_upper L c) COUNTRIES = Some info ->
  select_countries L a = inr [(str_upper L c, info)] /\ has_country a = true.
Proof.
  intros Hc Hne Hlk. unfold select_countries, has_country. rewrite Hc.
  destruct c; [done|]. by rewrite Hlk.
Qed.

(** What the example shows holds of every single-country run that is no
    dry run and reaches its end: the document it leaves behind has no
    entry under any other code, whatever the file held before. *)
Lemma single_country_run_file L W a f c info ls s :
  country a = Some c -> c <> [] ->
  lookup_country (str_upper L c) COUNTRIES = Some info ->
  dry_run a = false ->
  run L W a f = (Ok (Finished ls), s) ->
  exists d, file s = Some d /\
            forall iso, iso <> str_upper L c -> entries d !! iso = None.
Proof.
  intros Hc Hne Hlk Hdry Hrun.
  destruct (select_countries_known L a c info Hc Hne Hlk) as [Hsel Hsingle].
  set (J := fun ls : loop_state =>
              forall iso, iso <> str_upper L c -> entries (metadata ls) !! iso = None).
  unfold run, main in Hrun. rewrite Hsel, Hdry in Hrun.
  destruct (api_key_missing W && negb false); [done|].
  do 2 bind_inv Hrun. unfold collect in Hrun.
  apply bind_Ok_inv in Hrun as (md & sa & Hmd & Hrun).
  apply bind_Ok_inv in Hrun as (ls1 & sb & Hloop & Hrun).
  apply bind_Ok_inv in Hrun as (ls2 & sc & Hfinal & Hrun).
  apply bind_Ok_inv in Hrun as ([] & sd & Hreport & Hrun).
  injection Hrun as _ <-.
  assert (HJ : J ls1).
  { assert (Hmd0 : J (LoopState md 0 0 0)).
    { unfold initial_metadata, mbind, M_bind, mret, M_ret in Hmd. simpl in Hmd.
      injection Hmd as <- _. intros iso _. simpl. unfold loaded_entries.
      rewrite Hsingle. by destruct (file _). }
    refine (proj2 (triple_for_each L W (fun _ => True) J a _ _ _ Hmd0 _) ls1 _);
      [|by rewrite Hloop].
    intros it ls' Hin HJ'. apply list_elem_of_singleton in Hin as ->.
    eapply triple_weaken; [apply triple_process_country|done|].
    intros ls'' [Heq|(_ & _ & v & Heq)] iso Hiso; rewrite Heq; [by apply HJ'|].
    simpl. rewrite lookup_insert_ne by done. by apply HJ'. }
  unfold final_write, mbind, M_bind, mret, M_ret in Hfinal.
  rewrite Hdry in Hfinal. simpl in Hfinal. simplify_eq.
  unfold report, mbind, M_bind, mret, M_ret, print, emit in Hreport.
  rewrite Hdry in Hreport. simpl in Hreport. simplify_eq.
  simpl. eexists. split; [done|]. exact HJ.
Qed.

(* ===================================================================== *)
(** ** The store: what an iteration writes and counts *)
(* ===================================================================== *)

Section Store.

Context (L : pylib) (W : world).

Lemma triple_extract_and_store_stored it wikitext ls :
  triple (store_event it ls) (extract_and_store L W it wikitext ls)
         (store_result it ls).
Proof.
  destruct it as [iso [name suffix]].
  unfold extract_and_store.
  eapply triple_bind with (Q1 := fun _ => True).
  { eapply triple_weaken; [apply triple_extract| |done].
    intros [] He; simpl in *; try done. }
  intros result _.
  destruct (truthy result).
  - destruct result; try apply triple_raise.
    eapply triple_bind with (Q1 := fun _ => True);
      [by apply triple_now|intros t1 _].
    eapply triple_bind with (Q1 := fun _ => True); [by apply triple_print|intros _ _].
    eapply triple_bind with (Q1 := fun _ => True);
      [by apply triple_now|intros t2 _].
    assert (Hstored : stored_for (iso, (name, suffix))
                        (JObj (stamp iso name suffix t1 d))) by (by exists t1, d).
    eapply triple_bind with (Q1 := fun _ => True).
    + apply triple_write_file; [|done]. simpl. eauto.
    + intros _ _. apply triple_ret. split; [unfold processed; simpl; lia|].
      right. simpl. eauto.
  - eapply triple_bind with (Q1 := fun _ => True); [by apply triple_print|intros _ _].
    apply triple_ret. split; [unfold processed; simpl; lia|by left].
Qed.

Lemma triple_process_country_stored a it ls :
  triple (store_event it ls) (process_country L W a it ls) (store_result it ls).
Proof.
  destruct it as [iso [name suffix]]. unfold process_country.
  destruct (collected iso ls && negb (has_country a)).
  { eapply triple_bind with (Q1 := fun _ => True); [by apply triple_print|intros _ _].
    apply triple_ret. split; [unfold processed; simpl; lia|by left]. }
  eapply triple_bind with (Q1 := fun _ => True); [by apply triple_print|intros _ _].
  eapply triple_bind with (Q1 := fun _ => True); [by apply triple_print|intros _ _].
  eapply triple_bind with (Q1 := fun _ => True).
  { eapply triple_weaken; [apply triple_fetch| |done].
    intros [] He; simpl in *; try done. }
  intros [wikitext|] _.
  - eapply triple_bind with (Q1 := fun _ => True); [by apply triple_print|intros _ _].
    destruct (dry_run a).
    { apply triple_ret. split; [unfold processed; simpl; lia|by left]. }
    eapply triple_bind with (Q1 := fun _ => True); [by apply triple_print|intros _ _].
    apply triple_try_except.
    + apply (triple_extract_and_store_stored (iso, (name, suffix))).
    + intros e k Hk. destruct e; simpl in Hk; try done; injection Hk as <-;
        (eapply triple_bind with (Q1 := fun _ => True);
         [by apply triple_print|intros _ _]);
        apply triple_ret; (split; [unfold processed; simpl; lia|by left]).
  - eapply triple_bind with (Q1 := fun _ => True); [by apply triple_print|intros _ _].
    apply triple_ret. split; [unfold processed; simpl; lia|by left].
Qed.

(** The loop deals with every country it is given: the counters go up by
    the number of countries. *)
Lemma for_each_processed a countries ls :
  triple (fun _ => True) (for_each L W a countries ls)
         (fun ls' => processed ls' = (processed ls + length countries)%nat).
Proof.
  revert ls. induction countries as [|it rest IH]; intros ls; simpl.
  - apply triple_ret. lia.
  - eapply triple_bind with (Q1 := fun ls' => processed ls' = S (processed ls)).
    + eapply triple_weaken; [apply triple_process_country_stored|done|].
      by intros ls' [Hp _].
    + intros ls' Hls'. eapply triple_weaken; [apply IH|done|].
      intros ls'' ->. lia.
Qed.

End Store.

Lemma run_Finished_inv L W a f ls s :
  run L W a f = (Ok (Finished ls), s) ->
  exists countries md s0 ls1 s1,
    select_countries L a = inr countries /\
    entries md = loaded_entries a f /\
    for_each L W a countries (LoopState md 0 0 0) s0 = (Ok ls1, s1) /\
    success ls = success ls1 /\ failed ls = failed ls1 /\ skipped ls = skipped ls1 /\
    entries (metadata ls) = entries (metadata ls1) /\
    (dry_run a = false -> file s = Some (metadata ls)).
Proof.
  intros Hrun. unfold run, main in Hrun.
  destruct (api_key_missing W && negb (dry_run a)).
  { unfold mbind, M_bind, mret, M_ret, print, emit in Hrun. simpl in Hrun. simplify_eq. }
  apply bind_Ok_inv in Hrun as ([] & p1 & Hmkdir & Hrun).
  apply bind_Ok_inv in Hrun as ([] & p2 & Hclient & Hrun).
  assert (Hfile0 : f = file p2).
  { unfold emit in Hmkdir. simplify_eq.
    destruct (dry_run a); unfold mret, M_ret, emit in Hclient; by simplify_eq. }
  subst f. clear Hmkdir Hclient.
  destruct (select_countries L a) as [code|countries] eqn:Hsel.
  { do 3 bind_inv Hrun. unfold mret, M_ret in Hrun. simplify_eq. }
  unfold collect in Hrun.
  apply bind_Ok_inv in Hrun as (md & sa & Hmd & Hrun).
  apply bind_Ok_inv in Hrun as (ls1 & sb & Hloop & Hrun).
  apply bind_Ok_inv in Hrun as (ls2 & sc & Hfinal & Hrun).
  apply bind_Ok_inv in Hrun as ([] & sd & Hreport & Hrun).
  unfold mret, M_ret in Hrun. simplify_eq.
  exists countries, md, sa, ls1, sb.
  assert (Hmd' : entries md = loaded_entries a (file p2)).
  { unfold initial_metadata, mbind, M_bind, mret, M_ret in Hmd. simpl in Hmd.
    by simplify_eq. }
  unfold final_write, report, mbind, M_bind, mret, M_ret, print, emit in *.
  destruct (dry_run a); simpl in *; simplify_eq; simpl; split_and!; try done.
Qed.

(** X1.  A run that reaches its last line has counted every country it was to
    process exactly once: succeeded, failed and skipped add up to the
    number of selected countries. *)
Theorem finished_run_counts_every_country L W a f ls s countries :
  run L W a f = (Ok (Finished ls), s) ->
  select_countries L a = inr countries ->
  (success ls + failed ls + skipped ls)%nat = length countries.
Proof.
  intros Hrun Hsel.
  apply run_Finished_inv in Hrun
    as (cs & md & s0 & ls1 & s1 & Hsel' & _ & Hloop & -> & -> & -> & _).
  rewrite Hsel in Hsel'. injection Hsel' as <-.
  pose proof (proj2 (for_each_processed L W a countries (LoopState md 0 0 0) s0) ls1) as H.
  rewrite Hloop in H. by apply H.
Qed.

Lemma finished_run_counts_every_country_witness :
  let a := Args false (Some (lit "de")) (lit "dataset") in
  let r := run Sample.lib Sample.good_world a (Some Sample.france_doc) in
  exists ls,
    r = (Ok (Finished ls), r.2) /\
    select_countries Sample.lib a = inr [Sample.germany] /\
    (success ls + failed ls + skipped ls)%nat = 1%nat.
Proof.
  intros a r.
  assert (Hr : exists ls, r.1 = Ok (Finished ls)) by (vm_compute; eexists; reflexivity).
  destruct Hr as [ls Hr]. exists ls.
  assert (Hrun : r = (Ok (Finished ls), r.2)).
  { rewrite <- Hr. apply surjective_pairing. }
  split; [exact Hrun|]. split; [reflexivity|].
  exact (finished_run_counts_every_country Sample.lib Sample.good_world a
           (Some Sample.france_doc) ls r.2 [Sample.germany] Hrun eq_refl).
Defined.

(* ===================================================================== *)
(** ** Provenance fields *)
(* ===================================================================== *)

Lemma dict_get_set_eq k v d : dict_get k (dict_set k v d) = Some v.
Proof.
  induction d as [|[k' v'] d IH]; simpl.
  - by rewrite decide_True.
  - destruct (decide (k' = k)) as [->|Hne]; simpl.
    + by rewrite decide_True.
    + by rewrite decide_False.
Qed.

Lemma dict_get_set_ne k k' v d : k <> k' -> dict_get k' (dict_set k v d) = dict_get k' d.
Proof.
  intros Hne. induction d as [|[k0 v0] d IH]; simpl.
  - by rewrite decide_False.
  - destruct (decide (k0 = k)) as [->|Hne0]; simpl.
    + by rewrite !decide_False.
    + destruct (decide (k0 = k')); [done|exact IH].
Qed.


(** X2.  The four provenance fields of a stored result are those of the row
    and of the clock, whatever the model had put under these keys; every
    other field of the model's object is stored as the model gave it. *)
Theorem stamp_fields iso name suffix t d :
  let d' := stamp iso name suffix t d in
  dict_get (lit "country_name") d' = Some (JStr name) /\
  dict_get (lit "iso") d' = Some (JStr iso) /\
  dict_get (lit "wikipedia_article") d' = Some (JStr (article_title suffix)) /\
  dict_get (lit "extracted_at") d' = Some (JStr t) /\
  forall k,
    ~ In k [lit "country_name"; lit "iso"; lit "wikipedia_article"; lit "extracted_at"] ->
    dict_get k d' = dict_get k d.
Proof.
  unfold stamp. split_and!.
  - rewrite !dict_get_set_ne by done. apply dict_get_set_eq.
  - rewrite !dict_get_set_ne by done. apply dict_get_set_eq.
  - rewrite !dict_get_set_ne by done. apply dict_get_set_eq.
  - apply dict_get_set_eq.
  - intros k Hk. simpl in Hk.
    rewrite !dict_get_set_ne; [done|intros <-; tauto..].
Qed.

(* ===================================================================== *)
(** ** What a run may request and what it may store *)
(* ===================================================================== *)

Lemma select_countries_In L a countries it :
  select_countries L a = inr countries -> In it countries -> In it COUNTRIES.
Proof.
  unfold select_countries. destruct (country a) as [[|x c]|].
  - by intros [= <-].
  - destruct (lookup_country _ _) as [info|] eqn:Hlk; [|done].
    intros [= <-] [<-|[]]. by apply lookup_country_In.
  - by intros [= <-].
Qed.

(** X3.  A run only ever asks for the articles of rows of the table, and only
    ever asks the model about countries of the table; in a single-country
    run, only for the selected row. *)
Theorem run_requests_in_table L W a f :
  (forall page, In (EvGet page) (trace (run L W a f).2) ->
     exists countries it, select_countries L a = inr countries /\ In it countries /\
                          In it COUNTRIES /\ page = article_title it.2.2) /\
  (forall name wikitext, In (EvChat name wikitext) (trace (run L W a f).2) ->
     exists countries it, select_countries L a = inr countries /\ In it countries /\
                          In it COUNTRIES /\ name = it.2.1).
Proof.
  set (P := fun e : event =>
              match e with
              | EvGet page =>
                  exists countries it, select_countries L a = inr countries /\
                    In it countries /\ In it COUNTRIES /\ page = article_title it.2.2
              | EvChat name _ =>
                  exists countries it, select_countries L a = inr countries /\
                    In it countries /\ In it COUNTRIES /\ name = it.2.1
              | _ => True
              end).
  assert (Hall : Forall P (trace (run L W a f).2)).
  { eapply steps_initial, (run_steps L W P (fun _ => True)); try done.
    intros countries it ls Hsel Hin _. apply list_elem_of_In in Hin.
    eapply triple_weaken; [apply triple_process_country_stored| |done].
    intros [] He; unfold P; simpl in He; try done;
      exists countries, it; split_and!; eauto using select_countries_In. }
  rewrite Forall_forall in Hall.
  split; [intros page Hin|intros name wikitext Hin];
    apply list_elem_of_In in Hin; exact (Hall _ Hin).
Qed.



(* ===================================================================== *)
(** ** The credential check *)
(* ===================================================================== *)

(** X5.  A run ends on the credential check exactly when the credential
    variable is unset or empty and the run is no dry run; such a run has
    printed its two messages and done nothing else: no directory made, no
    request sent, the file as it was. *)
Theorem credential_check L W a f :
  ((run L W a f).1 = Ok MissingCredential <->
   (api_key W = None \/ api_key W = Some []) /\ dry_run a = false) /\
  ((run L W a f).1 = Ok MissingCredential ->
   history (run L W a f).2 = [EvPrint MsgKeyRequired; EvPrint MsgKeyHint] /\
   file (run L W a f).2 = f).
Proof.
  assert (Hmissing : api_key_missing W && negb (dry_run a) = true <->
                     (api_key W = None \/ api_key W = Some []) /\ dry_run a = false).
  { unfold api_key_missing. destruct (api_key W) as [[|x k]|], (dry_run a); simpl;
      split; try done; try (intros [[|] ?]; done); eauto. }
  destruct (api_key_missing W && negb (dry_run a)) eqn:Hcheck.
  - assert (Hrun : run L W a f =
                   (Ok MissingCredential,
                    State [EvPrint MsgKeyHint; EvPrint MsgKeyRequired] 0 0 0 f)).
    { unfold run, main. by rewrite Hcheck. }
    rewrite Hrun. simpl. split; [|done]. split; [intros _; by apply Hmissing|done].
  - pose proof (main_passes_check L W a (initial_state f) Hcheck) as Hpass.
    fold (run L W a f) in Hpass. split; [|done].
    split; [done|]. intros H%Hmissing. done.
Qed.


Lemma written_app evs1 evs2 :
  written (evs1 ++ evs2) = written evs1 ++ written evs2.
Proof.
  induction evs1 as [|e evs1 IH]; simpl; [done|].
  destruct e; simpl; by rewrite ?IH.
Qed.

(* ===================================================================== *)
(** ** The fetcher: the edges of the rate-limit path *)
(* ===================================================================== *)



(* ===================================================================== *)
(** ** Replies: white space and fences *)
(* ===================================================================== *)

Lemma lstrip_snoc y a :
  lstrip (y ++ [a]) = match lstrip y with [] => lstrip [a] | l => l ++ [a] end.
Proof.
  induction y as [|b y IH]; simpl; [done|].
  destruct (isspace b); [exact IH|done].
Qed.

Lemma rstrip_cons a x :
  rstrip (a :: x) = match rstrip x with [] => rstrip [a] | r => a :: r end.
Proof.
  unfold rstrip. simpl rev. rewrite lstrip_snoc.
  destruct (lstrip (rev x)) as [|n l]; [done|].
  rewrite rev_app_distr. simpl.
  destruct (rev l ++ [n]) eqn:Hl; [by destruct (rev l)|done].
Qed.

Lemma rstrip_prefix u x : rstrip x <> [] -> rstrip (u ++ x) = u ++ rstrip x.
Proof.
  intros Hx. induction u as [|a u IH]; simpl; [done|].
  rewrite rstrip_cons, IH. destruct (u ++ rstrip x) eqn:Hu; [|done].
  apply app_eq_nil in Hu as [_ Hu]. done.
Qed.

Lemma rstrip_spaces_left u x :
  Forall (fun c => isspace c = true) u ->
  rstrip (u ++ x) = match rstrip x with [] => [] | r => u ++ r end.
Proof.
  intros Hu. destruct (rstrip x) as [|n r] eqn:Hx.
  - induction Hu as [|a u Ha _ IH]; simpl; [done|].
    rewrite rstrip_cons, IH. unfold rstrip. simpl. by rewrite Ha.
  - rewrite rstrip_prefix; [by rewrite Hx|by rewrite Hx].
Qed.

Lemma lstrip_idem x : lstrip (lstrip x) = lstrip x.
Proof.
  induction x as [|a x IH]; simpl; [done|].
  destruct (isspace a) eqn:Ha; [done|]. simpl. by rewrite Ha.
Qed.

Lemma rstrip_idem x : rstrip (rstrip x) = rstrip x.
Proof. unfold rstrip. by rewrite rev_involutive, lstrip_idem. Qed.

Lemma strip_rstrip x : strip (rstrip x) = strip x.
Proof. unfold strip. by rewrite rstrip_idem. Qed.

(** [strip] does not see white space around a text. *)
Lemma strip_spaces_around u x v :
  Forall (fun c => isspace c = true) u -> Forall (fun c => isspace c = true) v ->
  strip (u ++ x ++ v) = strip x.
Proof.
  intros Hu Hv. unfold strip.
  rewrite app_assoc, rstrip_spaces by done.
  rewrite rstrip_spaces_left by done.
  destruct (rstrip x) as [|n r]; [done|]. by rewrite lstrip_spaces.
Qed.

(** X7.  White space before and after the model's reply never changes what it
    parses to -- a value, a JSON error or an index error alike. *)
Theorem parse_reply_ignores_outer_space L before content after :
  Forall (fun c => isspace c = true) before ->
  Forall (fun c => isspace c = true) after ->
  parse_reply L (before ++ content ++ after) = parse_reply L content.
Proof.
  intros Hb Ha. unfold parse_reply. by rewrite strip_spaces_around.
Qed.

Lemma parse_reply_ignores_outer_space_witness :
  let before := nl in
  let after := lit "  " ++ nl in
  Forall (fun c => isspace c = true) before /\
  Forall (fun c => isspace c = true) after /\
  parse_reply Sample.lib (before ++ Sample.object_text ++ after) = Ok Sample.object_value.
Proof.
  intros before after.
  assert (Hb : Forall (fun c => isspace c = true) before) by (by repeat constructor).
  assert (Ha : Forall (fun c => isspace c = true) after) by (by repeat constructor).
  split; [exact Hb|]. split; [exact Ha|].
  rewrite (parse_reply_ignores_outer_space Sample.lib before Sample.object_text after Hb Ha).
  by vm_compute.
Defined.

(** X8.  A reply with an opening fence and no closing one is taken as well:
    the fence line goes, the rest is parsed like the bare text. *)
Theorem unclosed_fence_parses_like_bare L lang J :
  ~ In 10%N lang ->
  rstrip J <> [] ->
  endswith FENCE (rstrip J) = false ->
  startswith FENCE (strip J) = false ->
  parse_reply L (FENCE ++ lang ++ nl ++ J) = parse_reply L J.
Proof.
  intros Hlang Hne Hend Hstart. unfold parse_reply.
  rewrite (strip_fences_plain (strip J)) by done.
  assert (Hstrip : strip (FENCE ++ lang ++ nl ++ J) = FENCE ++ lang ++ nl ++ rstrip J).
  { rewrite FENCE_chars.
    change ([96; 96; 96] ++ lang ++ nl ++ J)%N
      with (96 :: [96; 96] ++ (lang ++ nl ++ J))%N.
    rewrite strip_nonspace_prefix by (by repeat constructor).
    rewrite (app_assoc lang nl J), rstrip_prefix by done.
    by rewrite <- app_assoc. }
  rewrite Hstrip. unfold strip_fences, split1.
  rewrite startswith_app.
  replace (FENCE ++ lang ++ nl ++ rstrip J)
    with ((FENCE ++ lang) ++ 10%N :: rstrip J)
    by (unfold nl; by rewrite <- !app_assoc).
  rewrite cut_at_first.
  - simpl. by rewrite Hend, strip_rstrip.
  - rewrite in_app_iff. intros [H|H]; [|done]. revert H. by apply not_In_check.
Qed.

Lemma unclosed_fence_parses_like_bare_witness :
  ~ In 10%N (lit "json") /\
  rstrip Sample.object_text <> [] /\
  endswith FENCE (rstrip Sample.object_text) = false /\
  startswith FENCE (strip Sample.object_text) = false /\
  parse_reply Sample.lib (FENCE ++ lit "json" ++ nl ++ Sample.object_text)
  = Ok Sample.object_value.
Proof.
  assert (Hlang : ~ In 10%N (lit "json")) by (by apply not_In_check).
  assert (Hne : rstrip Sample.object_text <> []) by (by vm_compute).
  split; [exact Hlang|]. split; [exact Hne|]. split; [reflexivity|]. split; [reflexivity|].
  rewrite (unclosed_fence_parses_like_bare Sample.lib (lit "json") Sample.object_text
             Hlang Hne eq_refl eq_refl).
  by vm_compute.
Defined.

(* ===================================================================== *)
(** ** What the loop does with a parsed reply *)
(* ===================================================================== *)



(** X10.  A reply that parses to something Python takes for false -- [{}],
    [null], [0], [""], [[]], [false] -- counts as a failure and nothing is
    stored.  A reply that parses to a true value that is no object -- a
    non-empty list or string, a number, [true] -- makes the item
    assignment raise [TypeError], which the loop does not handle. *)
Theorem unusable_results L W it wikitext ls s content v :
  chat_create W (n_chat s) (extraction_prompt it.2.1 wikitext) = Some content ->
  parse_reply L content = Ok v ->
  let r := try_extract L W it wikitext ls s in
  (truthy v = false ->
   r.1 = Ok (count_failed ls) /\ file r.2 = file s /\
   written (history r.2) = written (history s)) /\
  (truthy v = true -> (forall d, v <> JObj d) ->
   r.1 = Raise TypeError /\ file r.2 = file s /\
   on_extract_error ls TypeError = None).
Proof.
  intros Hchat Hparse r. subst r.
  destruct it as [iso [name suffix]]. simpl in *.
  unfold try_extract, try_except, extract_and_store, extract_with_openai,
    chat_completions_create, mbind, M_bind, lift_res, history.
  unfold extraction_prompt in Hchat. rewrite Hchat, Hparse. simpl.
  split.
  - intros ->. simpl. split_and!; try done.
    rewrite !written_app. simpl. by rewrite !app_nil_r.
  - intros -> Hobj. destruct v; simpl; try done. by destruct (Hobj d).
Qed.

Lemma unusable_results_witness :
  let it := Sample.germany in
  let ls := Sample.empty_loop_state in
  let s := initial_state None in
  let run_with content := try_extract Sample.lib (Edges.reply_world content) it (lit "text") ls s in
  (parse_reply Sample.lib (lit "{}") = Ok (JObj []) /\
   truthy (JObj []) = false /\
   (run_with (lit "{}")).1 = Ok (count_failed ls)) /\
  (parse_reply Sample.lib (lit "[1]") = Ok (JArr [JInt 1]) /\
   truthy (JArr [JInt 1]) = true /\
   (run_with (lit "[1]")).1 = Raise TypeError).
Proof.
  intros it ls s run_with.
  assert (H1 : parse_reply Sample.lib (lit "{}") = Ok (JObj [])) by (by vm_compute).
  assert (H2 : parse_reply Sample.lib (lit "[1]") = Ok (JArr [JInt 1])) by (by vm_compute).
  split.
  - split; [exact H1|]. split; [reflexivity|].
    exact (proj1 (proj1 (unusable_results Sample.lib (Edges.reply_world (lit "{}")) it
                           (lit "text") ls s (lit "{}") (JObj []) eq_refl H1) eq_refl)).
  - split; [exact H2|]. split; [reflexivity|].
    exact (proj1 (proj2 (unusable_results Sample.lib (Edges.reply_world (lit "[1]")) it
                           (lit "text") ls s (lit "[1]") (JArr [JInt 1]) eq_refl H2)
                    eq_refl ltac:(discriminate))).
Defined.

(* ===================================================================== *)
(** ** The size of the prompt *)
(* ===================================================================== *)

(** X11.  Whatever the length of the article, the text embedded in the prompt
    has at most 80029 characters -- the budget and the marker -- and
    agrees with the article on its first 80000 characters; the prompt has
    at most 81660 characters more than the country name. *)
Theorem prompt_size_bounded name wikitext :
  len (truncate wikitext) <= 80029 /\
  slice_to max_chars (truncate wikitext) = slice_to max_chars wikitext /\
  len (extraction_prompt name wikitext) <= len name + 81660.
Proof.
  assert (Hlen : len (truncate wikitext) <= 80029).
  { unfold truncate. rewrite Z.gtb_ltb.
    destruct (Z.ltb_spec max_chars (len wikitext)) as [Hlong|Hshort];
      unfold len, max_chars, slice_to in *.
    - rewrite length_app, length_take.
      change (length TRUNCATION_MARKER) with 29%nat. lia.
    - lia. }
  split; [exact Hlen|]. split.
  - unfold truncate. rewrite Z.gtb_ltb.
    destruct (Z.ltb_spec max_chars (len wikitext)) as [Hlong|Hshort]; [|done].
    unfold slice_to, len, max_chars in *.
    rewrite take_app_le by (rewrite length_take; lia).
    rewrite take_take. f_equal; lia.
  - unfold extraction_prompt, format_prompt, len in *.
    rewrite !length_app.
    change (length PROMPT_HEAD) with 91%nat.
    change (length PROMPT_TAIL) with 1%nat.
    assert (Hfields : length PROMPT_FIELDS = 1539%nat) by (by vm_compute).
    rewrite Hfields. lia.
Qed.


(* ===================================================================== *)
(** ** The spelling of the country code *)
(* ===================================================================== *)

Lemma process_country_same L W a1 a2 it ls :
  dry_run a1 = dry_run a2 -> has_country a1 = has_country a2 ->
  process_country L W a1 it ls = process_country L W a2 it ls.
Proof.
  intros Hdry Hsel. destruct it as [iso [name suffix]].
  unfold process_country. by rewrite Hdry, Hsel.
Qed.

Lemma for_each_same L W a1 a2 countries ls s :
  dry_run a1 = dry_run a2 -> has_country a1 = has_country a2 ->
  for_each L W a1 countries ls s = for_each L W a2 countries ls s.
Proof.
  intros Hdry Hsel. revert ls s.
  induction countries as [|it rest IH]; intros ls s; simpl; [done|].
  unfold mbind, M_bind. rewrite (process_country_same L W a1 a2) by done.
  destruct (process_country L W a2 it ls s) as [[ls'|e] s']; [apply IH|done].
Qed.

Lemma bind_ext {A B} (m : M A) (f g : A -> M B) s :
  (forall a s', f a s' = g a s') -> (m ≫= f) s = (m ≫= g) s.
Proof.
  intros Hfg. unfold mbind, M_bind. destruct (m s) as [[a|e] s']; [apply Hfg|done].
Qed.

Lemma collect_same L W a1 a2 countries s :
  dry_run a1 = dry_run a2 -> output_dir a1 = output_dir a2 ->
  has_country a1 = has_country a2 ->
  collect L W a1 countries s = collect L W a2 countries s.
Proof.
  intros Hdry Hout Hhas. unfold collect.
  assert (Hmd : initial_metadata W a1 = initial_metadata W a2).
  { unfold initial_metadata, loaded_entries. by rewrite Hhas. }
  rewrite Hmd. apply bind_ext. intros md s1.
  unfold mbind at 1 4, M_bind at 1 4.
  rewrite (for_each_same L W a1 a2) by done.
  destruct (for_each L W a2 countries _ s1) as [[ls|e] s2]; [|done].
  unfold final_write, report. by rewrite Hdry, Hout.
Qed.

Lemma run_same L W a1 a2 f :
  same_selection L a1 a2 -> run L W a1 f = run L W a2 f.
Proof.
  intros (Hdry & Hout & Hhas & Hsel).
  unfold run, main. rewrite Hdry, Hout, Hsel.
  destruct (api_key_missing W && negb (dry_run a2)); [done|].
  apply bind_ext. intros _ s1. apply bind_ext. intros _ s2.
  destruct (select_countries L a2) as [code|countries]; [done|].
  by apply collect_same.
Qed.

(** X12.  The country code is taken without regard to case: two command lines
    that select a country by codes with the same upper-case form, and
    agree otherwise, give the same run -- same result, same events, same
    file. *)
Theorem country_code_case_insensitive L W a1 a2 f c1 c2 :
  country a1 = Some c1 -> country a2 = Some c2 ->
  c1 <> [] -> c2 <> [] ->
  str_upper L c1 = str_upper L c2 ->
  dry_run a1 = dry_run a2 ->
  output_dir a1 = output_dir a2 ->
  run L W a1 f = run L W a2 f.
Proof.
  intros H1 H2 Hne1 Hne2 Hup Hdry Hout. apply run_same.
  unfold same_selection, has_country, select_countries.
  rewrite H1, H2. destruct c1, c2; try done. by rewrite Hup.
Qed.

Lemma country_code_case_insensitive_witness :
  let a1 := Args false (Some (lit "de")) (lit "dataset") in
  let a2 := Args false (Some (lit "De")) (lit "dataset") in
  country a1 = Some (lit "de") /\ country a2 = Some (lit "De") /\
  lit "de" <> [] /\ lit "De" <> [] /\
  str_upper Sample.lib (lit "de") = str_upper Sample.lib (lit "De") /\
  run Sample.lib Sample.good_world a1 (Some Sample.france_doc)
  = run Sample.lib Sample.good_world a2 (Some Sample.france_doc).
Proof.
  intros a1 a2.
  split; [reflexivity|]. split; [reflexivity|].
  split; [discriminate|]. split; [discriminate|]. split; [reflexivity|].
  exact (country_code_case_insensitive Sample.lib Sample.good_world a1 a2
           (Some Sample.france_doc) (lit "de") (lit "De")
           eq_refl eq_refl ltac:(discriminate) ltac:(discriminate)
           eq_refl eq_refl eq_refl).
Defined.

(* ===================================================================== *)
(** ** Running again over a complete file *)
(* ===================================================================== *)


(* ===================================================================== *)
(** ** The file follows the memory *)
(* ===================================================================== *)

(** X14.  Whenever the [try] statement of the loop returns, one of two things
    happened: a failure was counted, and neither the entries in memory nor
    the file changed; or a success was counted, and the file holds the
    document that is in memory. *)
Theorem extraction_all_or_nothing L W it wikitext ls s ls' s' :
  try_extract L W it wikitext ls s = (Ok ls', s') ->
  (ls' = count_failed ls /\ file s' = file s /\
   written (history s') = written (history s)) \/
  (success ls' = S (success ls) /\ failed ls' = failed ls /\
   file s' = Some (metadata ls') /\
   written (history s') = written (history s) ++ [metadata ls']).
Proof.
  destruct it as [iso [name suffix]].
  unfold try_extract, try_except, extract_and_store, extract_with_openai,
    chat_completions_create, mbind, M_bind, lift_res, history.
  destruct (chat_create W _ _) as [content|]; simpl.
  - destruct (parse_reply L content) as [v|e]; simpl.
    + destruct (truthy v); simpl.
      * destruct v; simpl; try done. intros [= <- <-]. right. simpl.
        split_and!; try done. rewrite !written_app. simpl. by rewrite !app_nil_r.
      * intros [= <- <-]. left. simpl. split_and!; try done.
        rewrite !written_app. simpl. by rewrite !app_nil_r.
    + destruct e; simpl; try done; intros [= <- <-]; left; simpl;
        (split_and!; try done); rewrite !written_app; simpl; by rewrite !app_nil_r.
  - intros [= <- <-]. left. simpl. split_and!; try done.
    rewrite !written_app. simpl. by rewrite !app_nil_r.
Qed.

Lemma extraction_all_or_nothing_witness :
  let it := Sample.germany in
  let ls := Sample.empty_loop_state in
  let s := initial_state None in
  let r := try_extract Sample.lib Sample.api_down_world it (lit "text") ls s in
  r = (Ok (count_failed ls), r.2) /\
  file r.2 = file s /\
  written (history r.2) = written (history s).
Proof.
  intros it ls s r.
  assert (Hr : r = (Ok (count_failed ls), r.2)) by (by vm_compute).
  split; [exact Hr|].
  destruct (extraction_all_or_nothing Sample.lib Sample.api_down_world it (lit "text")
              ls s (count_failed ls) r.2 Hr) as [(_ & Hf & Hw)|(Hs & _)].
  - exact (conj Hf Hw).
  - exfalso. vm_compute in Hs. discriminate Hs.
Defined.

